(** * BharatPropChain front end: payment gateway, wallet session and trading

    A shallow embedding of [frontend/payment-gateway.js] and of the wallet
    and trading functions of [frontend/app.js].

    JavaScript numbers are IEEE 754 binary64 values and are modelled by Rocq's
    primitive floats.  Module-level [let] variables become fields of an
    explicit state record; promises are entries of a promise table and the
    [resolve]/[reject] closures are indices into it; what the browser, the
    backend and the user contribute (random draws, HTTP answers, clicks) is
    passed in as data. *)

From Stdlib Require Import PrimFloat.
From stdpp Require Import base option list strings gmap.

Local Open Scope string_scope.
Local Open Scope list_scope.

(** ** JavaScript values that the code distinguishes *)

(** A value that is used as a string but may be missing. *)
Inductive jsval : Type :=
  | JUndefined
  | JNull
  | JStr (s : string).

(** [String(v)], as performed by string concatenation and by
    [localStorage.setItem]. *)
Definition to_string (v : jsval) : string :=
  match v with
  | JUndefined => "undefined"
  | JNull => "null"
  | JStr s => s
  end.

(** Truthiness: [undefined], [null] and the empty string are falsy. *)
Definition truthy (v : jsval) : bool :=
  match v with
  | JStr s => negb (String.eqb s "")
  | _ => false
  end.

(** [v === s] for a string literal [s]. *)
Definition strict_eq_str (v : jsval) (s : string) : bool :=
  match v with
  | JStr t => String.eqb t s
  | _ => false
  end.

(** [a || b] on possibly missing strings. *)
Definition js_or (a b : jsval) : jsval := if truthy a then a else b.

(** ** The payment gateway ([payment-gateway.js]) *)

Module PaymentGateway.

(** The argument of [triggerCheckout]: [{ amount, name, email, propertyId, mode }]. *)
Record options : Type := {
  amount : float;
  name : jsval;
  email : jsval;
  propertyId : string;
  mode : jsval
}.

(** [currentOrder = { ...options, orderRef }], later extended with [txnId]. *)
Record order : Type := {
  order_options : options;
  orderRef : string;
  txnId : option string
}.

(** The object passed to [resolve] by [complete]. *)
Record checkout_result : Type := {
  success : bool;
  payment_ref : option string;
  order_id : string
}.

(** The object passed to [reject] by [cancel]. *)
Record checkout_error : Type := {
  error_success : bool;
  error : string
}.

(** A promise returned by [triggerCheckout]. *)
Inductive promise : Type :=
  | Pending
  | Fulfilled (r : checkout_result)
  | Rejected (e : checkout_error).

(** The part of the modal's DOM that the gateway reads or writes.  The
    icon glyph and the formatted amount text are presentation only and are
    left out. *)
Record modal_dom : Type := {
  modal_display : bool;        (* style.display: 'flex' (true) or 'none' *)
  pgHeader : string;           (* background colour *)
  pgTitle : string;
  pgSubTitle : string;
  pgOrderRef : string;
  pgMethodsList : list string; (* the argument of each method's onclick *)
  pgContent : bool;            (* 'block' (true) or 'none' *)
  pgProcessing : bool;
  pgProcStatus : string;
  pgProcDesc : string;
  pgSuccess : bool;
  pgSuccessTitle : string;
  pgTxnId : string
}.

(** The closure variables of the module, the promises it has handed out,
    the timeouts it has scheduled and the modal element. *)
Record state : Type := {
  currentOrder : option order;
  resolveCallback : option nat;  (* resolve function of promise number n *)
  rejectCallback : option nat;   (* reject function of promise number n *)
  promises : list promise;       (* by creation order *)
  timers : list bool;            (* pending timeouts, each with its captured isSell *)
  modal : option modal_dom       (* None until createModal has run *)
}.

Definition init : state :=
  {| currentOrder := None; resolveCallback := None; rejectCallback := None;
     promises := []; timers := []; modal := None |}.

(** [createModal]: the element as the markup builds it. *)
Definition fresh_modal : modal_dom :=
  {| modal_display := false;
     pgHeader := "#2b3990";
     pgTitle := "BharatPropChain Checkout";
     pgSubTitle := "Select Payment Method";
     pgOrderRef := "ORDER-123";
     pgMethodsList := [];
     pgContent := true;
     pgProcessing := false;
     pgProcStatus := "Processing Payment...";
     pgProcDesc := "Please do not close this window";
     pgSuccess := false;
     pgSuccessTitle := "Payment Successful!";
     pgTxnId := "BHARAT-123456" |}.

Definition createModal (st : state) : modal_dom :=
  match modal st with
  | Some m => m
  | None => fresh_modal
  end.

Definition isSell (m : jsval) : bool := strict_eq_str m "sell".

(** [(isSell ? 'SELL_' : 'ORDER_')] and [(isSell ? 'PAYOUT_' : 'TXN_')]. *)
Definition orderRef_prefix (sell : bool) : string :=
  if sell then "SELL_" else "ORDER_".
Definition txnId_prefix (sell : bool) : string :=
  if sell then "PAYOUT_" else "TXN_".

(** Settling a promise: only a pending promise changes. *)
Definition settle (p : nat) (v : promise) (ps : list promise) : list promise :=
  match ps !! p with
  | Some Pending => <[p := v]> ps
  | _ => ps
  end.

(** [triggerCheckout(options)].  [rnd] stands for
    [Math.random().toString(36).substring(7).toUpperCase()].  Returns the
    index of the new promise. *)
Definition triggerCheckout (o : options) (rnd : string) (st : state)
  : nat * state :=
  let m := createModal st in
  let sell := isSell (mode o) in
  let ref := orderRef_prefix sell +:+ rnd in
  let p := length (promises st) in
  (p,
   {| currentOrder := Some {| order_options := o; orderRef := ref; txnId := None |};
      resolveCallback := Some p;
      rejectCallback := Some p;
      promises := promises st ++ [Pending];
      timers := timers st;
      modal := Some
        {| modal_display := true;
           pgHeader := if sell then "#00695c" else "#2b3990";
           pgTitle := if sell then "BharatPropChain Payout"
                      else "BharatPropChain Checkout";
           pgSubTitle := if sell then "Select Payout Method"
                         else "Select Payment Method";
           pgOrderRef := ref;
           pgMethodsList := if sell then ["UPI Payout"; "Bank Transfer"]
                            else ["UPI"; "Card"];
           pgContent := true;
           pgProcessing := false;
           pgProcStatus := pgProcStatus m;
           pgProcDesc := pgProcDesc m;
           pgSuccess := false;
           pgSuccessTitle := pgSuccessTitle m;
           pgTxnId := pgTxnId m |} |}).

(** How a call ends: it returns, or it raises a TypeError on a null
    [currentOrder] or a missing element.  The state that comes with it
    holds the writes made up to that point. *)
Inductive completion : Type :=
  | Returns
  | Raises.

Definition set_modal (m : modal_dom) (st : state) : state :=
  {| currentOrder := currentOrder st;
     resolveCallback := resolveCallback st;
     rejectCallback := rejectCallback st;
     promises := promises st;
     timers := timers st;
     modal := Some m |}.

Definition set_promises (ps : list promise) (st : state) : state :=
  {| currentOrder := currentOrder st;
     resolveCallback := resolveCallback st;
     rejectCallback := rejectCallback st;
     promises := ps;
     timers := timers st;
     modal := modal st |}.

Definition set_timers (ts : list bool) (st : state) : state :=
  {| currentOrder := currentOrder st;
     resolveCallback := resolveCallback st;
     rejectCallback := rejectCallback st;
     promises := promises st;
     timers := ts;
     modal := modal st |}.

Definition set_txnId (t : string) (st : state) : state :=
  {| currentOrder :=
       match currentOrder st with
       | Some o => Some {| order_options := order_options o;
                           orderRef := orderRef o;
                           txnId := Some t |}
       | None => None
       end;
     resolveCallback := resolveCallback st;
     rejectCallback := rejectCallback st;
     promises := promises st;
     timers := timers st;
     modal := modal st |}.

(** [process(method)]: reads [currentOrder.mode], shows the processing
    panel and schedules the timeout. *)
Definition process (method : string) (st : state) : completion * state :=
  match currentOrder st, modal st with
  | Some o, Some m =>
      let sell := isSell (mode (order_options o)) in
      (Returns,
       set_timers (timers st ++ [sell])
         (set_modal
            {| modal_display := modal_display m;
               pgHeader := pgHeader m;
               pgTitle := pgTitle m;
               pgSubTitle := pgSubTitle m;
               pgOrderRef := pgOrderRef m;
               pgMethodsList := pgMethodsList m;
               pgContent := false;
               pgProcessing := true;
               pgProcStatus := if sell then "Initiating Payout..."
                               else "Processing Payment...";
               pgProcDesc := if sell then "Verifying bank details"
                             else "Please do not close this window";
               pgSuccess := pgSuccess m;
               pgSuccessTitle := pgSuccessTitle m;
               pgTxnId := pgTxnId m |} st))
  | _, _ => (Raises, st)
  end.

(** The callback given to [setTimeout] by [process], run for the oldest
    pending timeout ([sell] is the [isSell] it captured, [rnd] its random
    draw): shows the success panel, then writes [currentOrder.txnId]. *)
Definition timeout_callback (sell : bool) (rnd : string) (st : state)
  : completion * state :=
  match modal st with
  | None => (Raises, st)
  | Some m =>
      let txn := txnId_prefix sell +:+ rnd in
      let st1 :=
        set_modal
          {| modal_display := modal_display m;
             pgHeader := pgHeader m;
             pgTitle := pgTitle m;
             pgSubTitle := pgSubTitle m;
             pgOrderRef := pgOrderRef m;
             pgMethodsList := pgMethodsList m;
             pgContent := pgContent m;
             pgProcessing := false;
             pgProcStatus := pgProcStatus m;
             pgProcDesc := pgProcDesc m;
             pgSuccess := true;
             pgSuccessTitle := if sell then "Payout Successful!"
                               else "Payment Successful!";
             pgTxnId := txn |} st in
      match currentOrder st with
      | None => (Raises, st1)
      | Some _ => (Returns, set_txnId txn st1)
      end
  end.

(** The expiry of the oldest pending timeout; nothing runs when none is
    pending. *)
Definition timeout (rnd : string) (st : state) : completion * state :=
  match timers st with
  | [] => (Returns, st)
  | sell :: rest => timeout_callback sell rnd (set_timers rest st)
  end.

Definition hide (m : modal_dom) : modal_dom :=
  {| modal_display := false;
     pgHeader := pgHeader m; pgTitle := pgTitle m; pgSubTitle := pgSubTitle m;
     pgOrderRef := pgOrderRef m; pgMethodsList := pgMethodsList m;
     pgContent := pgContent m; pgProcessing := pgProcessing m;
     pgProcStatus := pgProcStatus m; pgProcDesc := pgProcDesc m;
     pgSuccess := pgSuccess m; pgSuccessTitle := pgSuccessTitle m;
     pgTxnId := pgTxnId m |}.

(** [complete()]: hides the modal and, when a resolve callback is held,
    calls it with the current order's [txnId] and [orderRef]. *)
Definition complete (st : state) : completion * state :=
  match modal st with
  | None => (Raises, st)
  | Some m =>
      let st1 := set_modal (hide m) st in
      match resolveCallback st with
      | None => (Returns, st1)
      | Some p =>
          match currentOrder st with
          | None => (Raises, st1)
          | Some o =>
              (Returns,
               set_promises
                 (settle p (Fulfilled {| success := true;
                                         payment_ref := txnId o;
                                         order_id := orderRef o |})
                         (promises st)) st1)
          end
      end
  end.

(** [cancel()]: hides the modal and, when a reject callback is held, calls
    it with [{ success: false, error: 'User cancelled' }]. *)
Definition cancel (st : state) : completion * state :=
  match modal st with
  | None => (Raises, st)
  | Some m =>
      let st1 := set_modal (hide m) st in
      match rejectCallback st with
      | None => (Returns, st1)
      | Some p =>
          (Returns,
           set_promises
             (settle p (Rejected {| error_success := false;
                                    error := "User cancelled" |})
                     (promises st)) st1)
      end
  end.

(** What can happen to the gateway from outside: calls of its four methods
    and the expiry of a timeout. *)
Inductive event : Type :=
  | Checkout (o : options) (rnd : string)
  | Process (method : string)
  | Timeout (rnd : string)
  | Complete
  | Cancel.

(** One event.  An exception raised in an event handler is caught by
    nobody: the handler stops and the state stays as it left it. *)
Definition step (st : state) (e : event) : state :=
  match e with
  | Checkout o rnd => snd (triggerCheckout o rnd st)
  | Process method => snd (process method st)
  | Timeout rnd => snd (timeout rnd st)
  | Complete => snd (complete st)
  | Cancel => snd (cancel st)
  end.

Definition run (st : state) (es : list event) : state := foldl step st es.

(** An order is open when the promise held by the callback pair is still
    pending. *)
Definition order_open (st : state) : bool :=
  match resolveCallback st with
  | Some p => match promises st !! p with Some Pending => true | _ => false end
  | None => false
  end.

End PaymentGateway.

(** ** Wallet session and trading ([app.js]) *)

Module App.

Import PaymentGateway.

(** A property of a JSON object that the code takes for text: undefined,
    null or a string, or else some other truthy value (a number, an object,
    an array), which has no [substring] method. *)
Inductive json : Type :=
  | JText (v : jsval)
  | JOther.
Coercion JText : jsval >-> json.

(** [a || b]. *)
Definition json_or (a : json) (b : jsval) : json :=
  match a with
  | JText v => JText (js_or v b)
  | JOther => JOther
  end.

(** [currentUser]: the profile object of the login response, or
    [{ wallet_address }]. *)
Record user : Type := {
  wallet_address : json;
  user_name : jsval;
  user_email : jsval
}.

(** An [Error] object (the TypeError or SyntaxError with which [fetch] and
    [response.json()] reject, or one raised by the code itself): it has a
    [message] and no [success] property. *)
Record js_error : Type := { message : string }.

(** What a [catch] clause can receive: an [Error], or the object with
    which the gateway rejected. *)
Inductive js_exn : Type :=
  | Err (e : js_error)
  | Rejection (c : checkout_error).

(** [error.message] and [error.success === false] on a caught value. *)
Definition exn_message (x : js_exn) : jsval :=
  match x with
  | Err e => JStr (message e)
  | Rejection _ => JUndefined
  end.

Definition exn_success_is_false (x : js_exn) : bool :=
  match x with
  | Err _ => false
  | Rejection c => negb (error_success c)
  end.

(** [propertyRes.property] with the two fields the trade functions read. *)
Record property : Type := {
  total_value : float;
  total_tokens : float
}.

(** The body of a settlement request. *)
Record trade_body : Type := {
  property_id : string;
  token_amount : float;
  body_payment_ref : option string;
  body_order_id : string
}.

(** The HTTP requests the modelled functions send. *)
Inductive request : Type :=
  | ReqRegister (wallet : jsval) (name email : string)
  | ReqLogin (wallet : jsval)
  | ReqProperty (propertyId : string)
  | ReqTradeBuy (body : trade_body)
  | ReqTradeSell (body : trade_body).

Definition endpoint (r : request) : string :=
  match r with
  | ReqRegister _ _ _ => "/api/auth/register"
  | ReqLogin _ => "/api/auth/login"
  | ReqProperty id => "/api/properties/" +:+ id
  | ReqTradeBuy _ => "/api/trade/buy"
  | ReqTradeSell _ => "/api/trade/sell"
  end.

Definition method (r : request) : string :=
  match r with
  | ReqProperty _ => "GET"
  | _ => "POST"
  end.

(** A response: the HTTP status and the fields of the JSON body that the
    code reads (a field the body lacks reads as [undefined], falsy). *)
Record response : Type := {
  status : N;
  data_success : bool;          (* truthiness of data.success *)
  access_token : jsval;
  data_user : option user;      (* data.user, None when missing *)
  data_property : option property;
  data_error : jsval;
  transaction : jsval
}.

(** An awaited network call: the parsed response, or the error with which
    [fetch] or [response.json()] rejected. *)
Inductive reply : Type :=
  | Replied (r : response)
  | Failed (e : js_error).

(** The connect button of the page: the properties the code writes. *)
Inductive handler : Type :=
  | OnConnectWallet
  | OnDisconnectWallet.

Record button : Type := {
  textContent : string;
  class_connected : bool;       (* classList contains 'connected' *)
  title : string;
  onclick : option handler
}.

(** Everything outside the script's variables and the storage:
    - [respond]: the backend's answer to each request;
    - [random]: the random draw for the order reference;
    - [clicks]: what happens to the gateway while the caller awaits its
      promise (nothing else runs meanwhile here: the script's variables and
      the storage stay as they are across an await);
    - [wallet_disconnect]: the result of [peraWallet.disconnect()], [None]
      when it succeeds;
    - [connectBtn]: [document.getElementById('connectWalletBtn')], [None]
      on a page without that element. *)
Record environment : Type := {
  respond : request -> reply;
  random : string;
  clicks : list PaymentGateway.event;
  wallet_disconnect : option js_error;
  connectBtn : option button
}.

(** The module-level variables of [app.js] ([peraWallet] only as "a provider
    object is held"), [localStorage] and the gateway. *)
Record world : Type := {
  accessToken : jsval;
  currentUser : option user;
  peraWallet : bool;
  localStorage : gmap string string;
  gateway : PaymentGateway.state
}.

(** What a call does that can be seen from outside, in order. *)
Inductive effect : Type :=
  | Fetch (req : request) (authorization : option string) (r : reply)
  | GatewayCheckout (o : options) (outcome : promise)
  | WalletDisconnect
  | Alert (msg : string)
  | ConsoleError (label : string) (x : js_exn).

(** How an async function ends: it returns a value, it raises, or it stays
    suspended at an [await] whose promise is never settled. *)
Inductive result (A : Type) : Type :=
  | Ok (a : A)
  | Throw (x : js_exn)
  | Suspended.
Arguments Ok {A} a.
Arguments Throw {A} x.
Arguments Suspended {A}.

(** Computations over the world that log their effects. *)
Definition M (A : Type) : Type := world -> result A * world * list effect.

Definition ret {A} (a : A) : M A := fun w => (Ok a, w, []).

Definition bind {A B} (m : M A) (k : A -> M B) : M B :=
  fun w =>
    match m w with
    | (Ok a, w1, l1) =>
        match k a w1 with
        | (r, w2, l2) => (r, w2, l1 ++ l2)
        end
    | (Throw x, w1, l1) => (Throw x, w1, l1)
    | (Suspended, w1, l1) => (Suspended, w1, l1)
    end.

Definition throw {A} (x : js_exn) : M A := fun w => (Throw x, w, []).

(** [try { m } catch (error) { h error }]. *)
Definition try_catch {A} (m : M A) (h : js_exn -> M A) : M A :=
  fun w =>
    match m w with
    | (Throw x, w1, l1) =>
        match h x w1 with
        | (r, w2, l2) => (r, w2, l1 ++ l2)
        end
    | other => other
    end.

Definition get : M world := fun w => (Ok w, w, []).
Definition modify (f : world -> world) : M unit := fun w => (Ok tt, f w, []).
Definition emit (e : effect) : M unit := fun w => (Ok tt, w, [e]).

Notation "'let!' x ':=' m 'in' k" := (bind m (fun x => k))
  (at level 10, x name, m at level 100, k at level 200).
Notation "'do!' m 'in' k" := (bind m (fun _ => k))
  (at level 10, m at level 100, k at level 200).

Definition alert (msg : string) : M unit := emit (Alert msg).
Definition console_error (label : string) (x : js_exn) : M unit :=
  emit (ConsoleError label x).

Definition set_session (t : jsval) (u : option user) (w : world) : world :=
  {| accessToken := t; currentUser := u; peraWallet := peraWallet w;
     localStorage := localStorage w; gateway := gateway w |}.

Definition set_accessToken (t : jsval) (w : world) : world :=
  set_session t (currentUser w) w.

Definition set_localStorage (ls : gmap string string) (w : world) : world :=
  {| accessToken := accessToken w; currentUser := currentUser w;
     peraWallet := peraWallet w; localStorage := ls; gateway := gateway w |}.

Definition set_gateway (g : PaymentGateway.state) (w : world) : world :=
  {| accessToken := accessToken w; currentUser := currentUser w;
     peraWallet := peraWallet w; localStorage := localStorage w; gateway := g |}.

(** [localStorage.setItem(key, value)] and [localStorage.removeItem(key)]. *)
Definition setItem (key : string) (value : jsval) : M unit :=
  modify (fun w => set_localStorage (<[key := to_string value]> (localStorage w)) w).
Definition removeItem (key : string) : M unit :=
  modify (fun w => set_localStorage (delete key (localStorage w)) w).

(** [saveToken] and [clearToken]. *)
Definition saveToken (token : jsval) : M unit :=
  do! setItem "accessToken" token in
  modify (set_accessToken token).

Definition clearToken : M unit :=
  do! removeItem "accessToken" in
  modify (set_session JNull None).

(** [localStorage.getItem(key)]: null for a missing key. *)
Definition getItem (key : string) (w : world) : jsval :=
  match localStorage w !! key with
  | Some s => JStr s
  | None => JNull
  end.

Definition newline : string := String (Ascii.ascii_of_nat 10) "".

(** The messages of the TypeErrors the engine raises for a property read
    on [undefined] or null and for a call of a missing method (V8's wording;
    no statement below depends on it). *)
Definition no_substring : js_error :=
  {| message := "Cannot read properties of undefined (reading 'substring')" |}.
Definition no_total_value : js_error :=
  {| message := "Cannot read properties of undefined (reading 'total_value')" |}.
Definition null_substring : js_error :=
  {| message := "Cannot read properties of null (reading 'substring')" |}.
Definition substring_not_a_function : js_error :=
  {| message := "address.substring is not a function" |}.

(** [address.substring(0, 6) + '...' + address.substring(address.length - 4)]. *)
Definition shortAddress (address : string) : string :=
  String.substring 0 6 address +:+ "..."
  +:+ String.substring (String.length address - 4) 4 address.

(** [isDemoMode || localStorage.getItem('isDemoMode') === 'true' ? ... : ...]. *)
Definition modeLabel (isDemoMode : bool) (w : world) : string :=
  if isDemoMode || strict_eq_str (getItem "isDemoMode" w) "true"
  then " 🎮" else " ✓".

(** [updateWalletUI(isDemoMode)] on the button [btn] of the page ([None]
    when the page has no such element); the result is the button it leaves.
    [address.substring] raises a TypeError when the address is null (a
    profile without address and nothing stored) or no string at all. *)
Definition updateWalletUI (isDemoMode : bool) (btn : option button)
  : M (option button) :=
  let! w := get in
  match btn, currentUser w with
  | Some _, Some u =>
      match json_or (wallet_address u) (getItem "walletAddress" w) with
      | JText (JStr address) =>
          ret (Some {| textContent := shortAddress address +:+ modeLabel isDemoMode w;
                       class_connected := true;
                       title := "Connected: " +:+ address +:+ newline
                                +:+ "Click to disconnect";
                       onclick := Some OnDisconnectWallet |})
      | JText _ => throw (Err null_substring)
      | JOther => throw (Err substring_not_a_function)
      end
  | _, _ => ret btn
  end.

Section WithEnvironment.

Variable env : environment.

(** An awaited [fetch] followed by [response.json()]. *)
Definition fetch (req : request) (authorization : option string) : M response :=
  fun w =>
    match respond env req with
    | Replied r => (Ok r, w, [Fetch req authorization (Replied r)])
    | Failed e => (Throw (Err e), w, [Fetch req authorization (Failed e)])
    end.

(** [apiCall(endpoint, method, body)]: adds the bearer header when
    [accessToken] is truthy. *)
Definition apiCall (req : request) : M response :=
  let! w := get in
  fetch req (if truthy (accessToken w)
             then Some ("Bearer " +:+ to_string (accessToken w))
             else None).

(** [await PaymentGateway.triggerCheckout(options)], seen from the gateway:
    the call, then whatever happens to the gateway until the caller is
    resumed; the result is the state of the promise the call returned. *)
Definition await_checkout (o : options) (g : PaymentGateway.state)
  : promise * PaymentGateway.state :=
  let '(p, g1) := triggerCheckout o (random env) g in
  let g2 := run g1 (clicks env) in
  (default Pending (promises g2 !! p), g2).

(** The same, seen from the awaiting caller: a resolved promise gives its
    value, a rejected one raises, a pending one never resumes the caller. *)
Definition checkout (o : options) : M checkout_result :=
  fun w =>
    let '(outcome, g2) := await_checkout o (gateway w) in
    (match outcome with
     | Fulfilled r => Ok r
     | Rejected c => Throw (Rejection c)
     | Pending => Suspended
     end,
     set_gateway g2 w,
     [GatewayCheckout o outcome]).

(** *** Wallet connection *)

(** [accounts[0]]. *)
Definition first_account (accounts : list string) : jsval :=
  match accounts with
  | a :: _ => JStr a
  | [] => JUndefined
  end.

(** [handleWalletConnection(accounts, isDemoMode)].  [updateWalletUI] is
    called after the session is set and stored, inside the same try: when it
    raises, the failure alert is shown with the session already written.
    The button it writes belongs to the page and is not kept. *)
Definition handleWalletConnection (accounts : list string) (isDemoMode : bool)
  : M unit :=
  let walletAddress := first_account accounts in
  try_catch
    (let! email :=
       (if isDemoMode then ret "demo@example.com"
        else match walletAddress with
             | JStr a => ret (String.substring 0 8 a +:+ "@perawallet.user")
             | _ => throw (Err no_substring)
             end) in
     let! data :=
       fetch (ReqRegister walletAddress
                (if isDemoMode then "Demo User" else "Pera Wallet User")
                email) None in
     do! (if data_success data || N.eqb (status data) 400 then
            (* Login if already registered *)
            let! loginData := fetch (ReqLogin walletAddress) None in
            modify (set_session (access_token loginData) (data_user loginData))
          else
            modify (set_session (access_token data)
                      (Some {| wallet_address := walletAddress;
                               user_name := JUndefined;
                               user_email := JUndefined |}))) in
     let! w := get in
     do! saveToken (accessToken w) in
     do! setItem "walletAddress" walletAddress in
     do! setItem "isDemoMode" (JStr (if isDemoMode then "true" else "false")) in
     do! updateWalletUI isDemoMode (connectBtn env) in
     alert ("Wallet connected successfully!"
            +:+ (if isDemoMode then " (Demo Mode)" else "")
            +:+ newline +:+ newline
            +:+ "Address: " +:+ to_string walletAddress))
    (fun error =>
       do! console_error "Wallet connection handling error:" error in
       alert "Failed to complete wallet connection").

(** [disconnectWallet()].  The button update between the storage writes
    and the alert only touches the page and is left out. *)
Definition disconnectWallet : M unit :=
  try_catch
    (let! w := get in
     do! (if peraWallet w then
            do! emit WalletDisconnect in
            match wallet_disconnect env with
            | None => ret tt
            | Some e => throw (Err e)
            end
          else ret tt) in
     do! clearToken in
     do! removeItem "walletAddress" in
     do! removeItem "isDemoMode" in
     alert "Wallet disconnected")
    (fun error => console_error "Disconnect error:" error).

(** *** Trading *)

(** What [buyTokens] and [sellTokens] return. *)
Inductive retval : Type :=
  | RUndefined
  | RNull
  | RTransaction (t : jsval)      (* data.transaction *)
  | RData (data : response).

(** [propertyRes.property], whose fields are then read. *)
Definition property_of (propertyRes : response) : M property :=
  match data_property propertyRes with
  | Some p => ret p
  | None => throw (Err no_total_value)
  end.

(** [pricePerToken * tokenAmount] with
    [pricePerToken = property.total_value / property.total_tokens]. *)
Definition totalAmount (p : property) (tokenAmount : float) : float :=
  let pricePerToken := (total_value p / total_tokens p)%float in
  (pricePerToken * tokenAmount)%float.

(** [currentUser ? currentUser.name : 'Valued Investor'] and
    [currentUser ? currentUser.email : '']. *)
Definition payer_name (w : world) : jsval :=
  match currentUser w with
  | Some u => user_name u
  | None => JStr "Valued Investor"
  end.
Definition payer_email (w : world) : jsval :=
  match currentUser w with
  | Some u => user_email u
  | None => JStr ""
  end.

(** [buyTokens(propertyId, tokenAmount)]. *)
Definition buyTokens (propertyId : string) (tokenAmount : float) : M retval :=
  let! w := get in
  if negb (truthy (accessToken w)) then
    do! alert "Please connect your wallet first" in
    ret RUndefined
  else
    try_catch
      ((* Step 1: Get property price info for payment gateway *)
       let! propertyRes := apiCall (ReqProperty propertyId) in
       let! property := property_of propertyRes in
       (* Step 2: Trigger Payment Gateway *)
       let! w := get in
       let! paymentResult :=
         checkout {| amount := totalAmount property tokenAmount;
                     name := payer_name w;
                     email := payer_email w;
                     PaymentGateway.propertyId := propertyId;
                     mode := JUndefined |} in
       if negb (success paymentResult) then
         do! alert "Payment cancelled or failed." in
         ret RUndefined
       else
         (* Step 3: Call API to finalize token purchase *)
         let! data :=
           apiCall (ReqTradeBuy
                      {| property_id := propertyId;
                         token_amount := tokenAmount;
                         body_payment_ref := payment_ref paymentResult;
                         body_order_id := order_id paymentResult |}) in
         if data_success data then
           do! alert "Payment Confirmed & Tokens Purchased Successfully!" in
           ret (RTransaction (transaction data))
         else
           do! alert ("Purchase failed after payment: "
                      +:+ to_string (js_or (data_error data)
                                           (JStr "Unknown error"))) in
           ret RUndefined)
      (fun error =>
         do! console_error "Trading error:" error in
         if exn_success_is_false error then ret RUndefined (* User cancelled *)
         else
           do! alert ("Failed to buy tokens: "
                      +:+ to_string (exn_message error)) in
           ret RUndefined).

(** [sellTokens(propertyId, tokenAmount)]. *)
Definition sellTokens (propertyId : string) (tokenAmount : float) : M retval :=
  let! w := get in
  if negb (truthy (accessToken w)) then
    do! alert "Please connect your wallet first" in
    ret RUndefined
  else
    try_catch
      ((* Step 1: Get property price info for payout *)
       let! propertyRes := apiCall (ReqProperty propertyId) in
       let! property := property_of propertyRes in
       (* Step 2: Trigger Payment Gateway (payout flow) *)
       let! w := get in
       let! payoutResult :=
         checkout {| amount := totalAmount property tokenAmount;
                     name := payer_name w;
                     email := payer_email w;
                     PaymentGateway.propertyId := propertyId;
                     mode := JStr "sell" |} in
       if negb (success payoutResult) then
         do! alert "Payout cancelled or failed." in
         ret RNull
       else
         (* Step 3: Call API to finalize token sale *)
         let! data :=
           apiCall (ReqTradeSell
                      {| property_id := propertyId;
                         token_amount := tokenAmount;
                         body_payment_ref := payment_ref payoutResult;
                         body_order_id := order_id payoutResult |}) in
         if data_success data then
           do! alert "Payout Successful! Tokens debited from your account." in
           ret (RData data)
         else
           do! alert ("Sale failed: "
                      +:+ to_string (js_or (data_error data)
                                           (JStr "Unknown error"))) in
           ret RNull)
      (fun error =>
         do! console_error "Trading error:" error in
         do! alert ("Failed to sell tokens: "
                    +:+ to_string (exn_message error)) in
         ret RNull).

End WithEnvironment.

(** *** Reading a log *)

(** The operands of the outcome of a call: what it returned (or how it
    ended), the world it left, and its effects. *)
Definition outcome_of {A} (x : result A * world * list effect) : result A := fst (fst x).
Definition world_of {A} (x : result A * world * list effect) : world := snd (fst x).
Definition log_of {A} (x : result A * world * list effect) : list effect := snd x.

(** The messages shown by [alert]. *)
Fixpoint alerts (l : list effect) : list string :=
  match l with
  | [] => []
  | Alert msg :: l' => msg :: alerts l'
  | _ :: l' => alerts l'
  end.

(** The options handed to [PaymentGateway.triggerCheckout]. *)
Fixpoint checkouts (l : list effect) : list options :=
  match l with
  | [] => []
  | GatewayCheckout o _ :: l' => o :: checkouts l'
  | _ :: l' => checkouts l'
  end.

(** The requests sent to the backend. *)
Fixpoint requests (l : list effect) : list request :=
  match l with
  | [] => []
  | Fetch req _ _ :: l' => req :: requests l'
  | _ :: l' => requests l'
  end.

(** Requests to [/api/trade/buy] or [/api/trade/sell]. *)
Definition is_settlement (req : request) : bool :=
  match req with
  | ReqTradeBuy _ | ReqTradeSell _ => true
  | _ => false
  end.

Definition settlement_calls (l : list effect) : nat :=
  length (List.filter is_settlement (requests l)).

(** The gateway approved: its promise was resolved with a truthy
    [success]. *)
Definition approved (outcome : promise) : bool :=
  match outcome with
  | Fulfilled r => success r
  | _ => false
  end.

(** A network call failed: it raised, or the body has no truthy
    [success]. *)
Definition reply_failed (r : reply) : bool :=
  match r with
  | Replied d => negb (data_success d)
  | Failed _ => true
  end.

(** What the caller and the user get to know of a call: how it ended and
    the alerts it showed. *)
Definition report {A} (x : result A * world * list effect) : result A * list string :=
  (outcome_of x, alerts (log_of x)).

End App.

(** * Notions used in the statements *)

Section Statements.

Import PaymentGateway App.

Implicit Types (st : PaymentGateway.state) (p q : nat).

(** ** A promise that has lost its callbacks

    [orphan p st]: promise [p] is pending and neither callback slot holds
    its resolve or reject function. *)
Definition orphan p st : Prop :=
  promises st !! p = Some Pending
  /\ resolveCallback st ≠ Some p
  /\ rejectCallback st ≠ Some p.

(** The statement that a checkout made over an open order is turned down
    and leaves the slot alone. *)
Definition rejects_when_open : Prop :=
  forall st o rnd,
    order_open st = true ->
    let '(q, st') := triggerCheckout o rnd st in
    (exists e, promises st' !! q = Some (Rejected e))
    /\ currentOrder st' = currentOrder st
    /\ resolveCallback st' = resolveCallback st
    /\ rejectCallback st' = rejectCallback st.

(** The statement that acknowledging or cancelling empties the slot. *)
Definition clears_slot : Prop :=
  forall st st',
    complete st = (Returns, st') \/ cancel st = (Returns, st') ->
    currentOrder st' = None
    /\ resolveCallback st' = None
    /\ rejectCallback st' = None.

Definition buy_options : options :=
  {| amount := 500000%float; name := JStr "Valued Investor"; email := JStr "";
     propertyId := "P1"; mode := JUndefined |}.

Definition sell_options : options :=
  {| amount := 500000%float; name := JStr "Valued Investor"; email := JStr "";
     propertyId := "P1"; mode := JStr "sell" |}.

(** The statement that the transaction id of a resolved checkout carries the
    prefix of that checkout's own mode, for the checkout made after any
    history [es1] and followed by any events [es2]. *)
Definition txnId_follows_mode : Prop :=
  forall es1 o rnd es2 r t,
    let p := length (promises (run init es1)) in
    promises (run init (es1 ++ Checkout o rnd :: es2)) !! p = Some (Fulfilled r) ->
    payment_ref r = Some t ->
    String.prefix (txnId_prefix (isSell (mode o))) t = true.

(** ** What the gateway can answer

    Whatever the gateway looked like before, the promise of a new checkout
    can only be pending, resolved by [complete] or rejected by [cancel]. *)

Definition gateway_made (pr : promise) : Prop :=
  match pr with
  | Pending => True
  | Fulfilled r => success r = true
  | Rejected c => c = {| error_success := false; error := "User cancelled" |}
  end.

Definition made_at (q : nat) (ps : list promise) : Prop :=
  forall x, ps !! q = Some x -> gateway_made x.

(** The body of the registration request for the first account [a]. *)
Definition register_request (a : string) (isDemoMode : bool) : request :=
  ReqRegister (JStr a)
    (if isDemoMode then "Demo User" else "Pera Wallet User")
    (if isDemoMode then "demo@example.com"
     else String.substring 0 8 a +:+ "@perawallet.user").

(** The statement that disconnecting always leaves no session behind. *)
Definition disconnect_always_clears : Prop :=
  forall env w,
    let w' := world_of (disconnectWallet env w) in
    localStorage w' !! "accessToken" = None
    /\ localStorage w' !! "walletAddress" = None
    /\ localStorage w' !! "isDemoMode" = None
    /\ truthy (accessToken w') = false
    /\ currentUser w' = None.

(** The statement that, when registration does not report an existing
    identity (status 400), the token of the registration response is
    adopted. *)
Definition adopts_registration_token : Prop :=
  forall env a rest isDemoMode w r,
    respond env (register_request a isDemoMode) = Replied r ->
    N.eqb (status r) 400 = false ->
    accessToken (world_of (handleWalletConnection env (a :: rest) isDemoMode w))
    = access_token r.

(** The statement that a connection answered by the backend never leaves
    the token unset. *)
Definition token_never_unset : Prop :=
  forall env a rest isDemoMode w r login,
    respond env (register_request a isDemoMode) = Replied r ->
    respond env (ReqLogin (JStr a)) = Replied login ->
    truthy (accessToken (world_of (handleWalletConnection env (a :: rest) isDemoMode w)))
    = true.

(** A settlement request of the log failed (it raised or was refused), and
    a settlement request of the log was refused (answered without a truthy
    [success]). *)
Definition settlement_failed_in (l : list effect) : Prop :=
  exists req a rep,
    In (Fetch req a rep) l /\ is_settlement req = true /\ reply_failed rep = true.

Definition settlement_refused_in (l : list effect) : Prop :=
  exists req a d,
    In (Fetch req a (Replied d)) l /\ is_settlement req = true
    /\ data_success d = false.

(** The statement that a trade whose settlement failed after an approved
    payment is reported as a condition of its own: never like a trade of
    which no settlement failed. *)
Definition settlement_failure_reported_apart
    (trade : environment -> string -> float -> M retval) : Prop :=
  forall env1 env2 (id1 id2 : string) (n1 n2 : float) w1 w2,
    settlement_failed_in (log_of (trade env1 id1 n1 w1)) ->
    ~ settlement_failed_in (log_of (trade env2 id2 n2 w2)) ->
    report (trade env1 id1 n1 w1) ≠ report (trade env2 id2 n2 w2).

(** The alert of [buyTokens] and of [sellTokens] for a settlement request
    that was refused (the else branch of [data.success]) or raised (the catch
    block of the function). *)
Definition buy_failure_alert (rep : reply) : string :=
  match rep with
  | Replied d =>
      "Purchase failed after payment: "
      +:+ to_string (js_or (data_error d) (JStr "Unknown error"))
  | Failed e => "Failed to buy tokens: " +:+ message e
  end.

Definition sell_failure_alert (rep : reply) : string :=
  match rep with
  | Replied d =>
      "Sale failed: " +:+ to_string (js_or (data_error d) (JStr "Unknown error"))
  | Failed e => "Failed to sell tokens: " +:+ message e
  end.

(** ** Sample data *)

Definition sample_property : property :=
  {| total_value := 50000000%float; total_tokens := 1000%float |}.

Definition sample_response : response :=
  {| status := 200; data_success := true; access_token := JStr "T1";
     data_user := None; data_property := Some sample_property;
     data_error := JUndefined; transaction := JStr "TX" |}.

Definition refusal : response :=
  {| status := 400; data_success := false; access_token := JUndefined;
     data_user := None; data_property := None;
     data_error := JStr "Insufficient tokens"; transaction := JUndefined |}.

(** A backend that answers every request with [sample_response], one whose
    settlement endpoints refuse, and one whose settlement endpoints cannot be
    reached. *)
Definition backend_ok : request -> reply := fun _ => Replied sample_response.

Definition backend_refuses_settlement : request -> reply :=
  fun req => if is_settlement req then Replied refusal else Replied sample_response.

Definition backend_settlement_down (msg : string) : request -> reply :=
  fun req => if is_settlement req then Failed {| message := msg |}
             else Replied sample_response.

(** A backend whose pricing endpoint cannot be reached. *)
Definition backend_pricing_down (msg : string) : request -> reply :=
  fun req =>
    match req with
    | ReqProperty _ => Failed {| message := msg |}
    | _ => Replied sample_response
    end.

(** A backend at which registration succeeds with token [T1] and login
    answers with token [T2], and one at which the identity exists (status
    400) and login answers without a token. *)
Definition backend_fresh_identity : request -> reply :=
  fun req =>
    match req with
    | ReqLogin _ =>
        Replied {| status := 200; data_success := true; access_token := JStr "T2";
                   data_user := None; data_property := None;
                   data_error := JUndefined; transaction := JUndefined |}
    | _ =>
        Replied {| status := 201; data_success := true; access_token := JStr "T1";
                   data_user := None; data_property := None;
                   data_error := JUndefined; transaction := JUndefined |}
    end.

Definition backend_login_without_token : request -> reply :=
  fun _ => Replied refusal.

(** A backend whose login answers with token [T2] and a profile whose
    [wallet_address] is no string. *)
Definition backend_address_not_text : request -> reply :=
  fun _ =>
    Replied {| status := 200; data_success := true; access_token := JStr "T2";
               data_user := Some {| wallet_address := JOther;
                                    user_name := JStr "Asha";
                                    user_email := JUndefined |};
               data_property := None; data_error := JUndefined;
               transaction := JUndefined |}.

(** A backend that answers every request with status 503 and no token. *)
Definition backend_unavailable : request -> reply :=
  fun _ => Replied {| status := 503; data_success := false;
                      access_token := JUndefined; data_user := None;
                      data_property := None;
                      data_error := JStr "Service unavailable";
                      transaction := JUndefined |}.

Definition approving : list PaymentGateway.event :=
  [Process "UPI"; Timeout "C3"; Complete].

Definition cancelling : list PaymentGateway.event := [Cancel].

(** The connect button as [disconnectWallet] leaves it. *)
Definition connect_button : button :=
  {| textContent := "Connect Wallet"; class_connected := false; title := "";
     onclick := Some OnConnectWallet |}.

Definition environment_of (backend : request -> reply)
    (events : list PaymentGateway.event) (provider : option js_error) : environment :=
  {| respond := backend; random := "A1"; clicks := events;
     wallet_disconnect := provider; connectBtn := Some connect_button |}.

(** A connected demo session, with or without a wallet provider, and a
    page without session. *)
Definition connected (provider : bool) : world :=
  {| accessToken := JStr "T1";
     currentUser := Some {| wallet_address := JStr "DEMOX1"; user_name := JUndefined;
                            user_email := JUndefined |};
     peraWallet := provider;
     localStorage := <["accessToken" := "T1"]>
                       (<["walletAddress" := "DEMOX1"]>
                          (<["isDemoMode" := "true"]> ∅));
     gateway := init |}.

Definition disconnected : world :=
  {| accessToken := JNull; currentUser := None; peraWallet := false;
     localStorage := ∅; gateway := init |}.

End Statements.

(** ** The rest of the wallet session code ([app.js]) *)

Module Wallet.

Import PaymentGateway App.

(** The "Restore previous session" block of the [DOMContentLoaded] handler
    (its [updateWalletUI] call leaves the script's variables and the storage
    as they are). *)
Definition restoreSession (w : world) : world :=
  let storedToken := getItem "accessToken" w in
  let storedAddress := getItem "walletAddress" w in
  if truthy storedToken && truthy storedAddress then
    set_session storedToken
      (Some {| wallet_address := storedAddress; user_name := JUndefined;
               user_email := JUndefined |}) w
  else w.

(** The page after a reload, at the end of the [DOMContentLoaded] handler:
    the script's variables start out null, the gateway closure is new, the
    storage is what the previous page left, and [peraWallet] is set when the
    wallet SDK is loaded. *)
Definition reload (sdk : bool) (w : world) : world :=
  restoreSession
    {| accessToken := JNull; currentUser := None; peraWallet := sdk;
       localStorage := localStorage w; gateway := PaymentGateway.init |}.

(** [walletAddress || 'DEMO' + Math.random()...] for the answer of the
    prompt ([JNull] when it was dismissed) and the random draw. *)
Definition demoAddress (answer : jsval) (draw : string) : string :=
  to_string (js_or answer (JStr ("DEMO" +:+ draw))).

(** [connectDemoWallet()], given the answer of the prompt and the draw. *)
Definition connectDemoWallet (env : environment) (answer : jsval) (draw : string)
  : M unit :=
  try_catch
    (handleWalletConnection env [demoAddress answer draw] true)
    (fun error =>
       do! console_error "Demo wallet error:" error in
       alert "Failed to connect demo wallet").

End Wallet.

(** ** KYC and property issuance ([app.js]) *)

Module Issuance.

Import App.

(** The fields of a JSON body that these functions read (a body that is a
    number, a string or a boolean reads as one without any of them). *)
Record data : Type := {
  success : bool;               (* truthiness of data.success *)
  status : jsval;
  error : jsval;
  message : jsval;
  property_id : jsval
}.

(** What [response.json()] gives: such a body, or null, a property read of
    which raises a TypeError. *)
Inductive body : Type :=
  | Object (d : data)
  | Null.
Coercion Object : data >-> body.

(** [{ status: s }]. *)
Definition only_status (s : string) : data :=
  {| success := false; status := JStr s; error := JUndefined;
     message := JUndefined; property_id := JUndefined |}.

(** The requests of these functions; form and KYC payloads are opaque (and
    truthy, so that [apiCall] sends them as body). *)
Inductive call : Type :=
  | KycStatus
  | KycVerify (kycData : string)
  | PropertiesRegister (formData : string)
  | UploadDocument (propertyId file docType : string)
  | PropertyVerify (propertyId : string)
  | PropertyTokenize (propertyId : string).

Definition endpoint (c : call) : string :=
  match c with
  | KycStatus => "/api/kyc/status"
  | KycVerify _ => "/api/kyc/verify"
  | PropertiesRegister _ => "/api/properties/register"
  | UploadDocument id _ _ => "/api/properties/" +:+ id +:+ "/upload-document"
  | PropertyVerify id => "/api/properties/" +:+ id +:+ "/verify"
  | PropertyTokenize id => "/api/properties/" +:+ id +:+ "/tokenize"
  end.

Definition method (c : call) : string :=
  match c with
  | KycStatus => "GET"
  | _ => "POST"
  end.

(** How a request ends: answered with a body, answered with the body
    [null], or [fetch] or [response.json()] rejected. *)
Inductive answer : Type :=
  | Answered (d : data)
  | AnsweredNull
  | Raised (e : js_error).

Inductive effect : Type :=
  | Request (c : call) (authorization : option string) (a : answer)
  | Alert (msg : string)
  | ConsoleError (label : string) (e : js_error)
  | Navigate (href : string).          (* window.location.href = href *)

(** How a call ends, with its effects in order. *)
Inductive outcome (A : Type) : Type :=
  | Returned (a : A)
  | Thrown (e : js_error).
Arguments Returned {A} & a.
Arguments Thrown {A} e.

Definition T (A : Type) : Type := outcome A * list effect.

Definition pure {A} (a : A) : T A := (Returned a, []).
Definition say {A} (e : effect) (k : T A) : T A := (fst k, e :: snd k).
Definition andThen {A B} (m : T A) (k : A -> T B) : T B :=
  match m with
  | (Returned a, l) => (fst (k a), l ++ snd (k a))
  | (Thrown e, l) => (Thrown e, l)
  end.
Definition catch {A} (m : T A) (h : js_error -> T A) : T A :=
  match m with
  | (Thrown e, l) => (fst (h e), l ++ snd (h e))
  | other => other
  end.

(** The TypeError of a property read on null (V8's wording). *)
Definition null_read (field : string) : js_error :=
  {| App.message := "Cannot read properties of null (reading '" +:+ field +:+ "')" |}.

Section WithBackend.

(** The script's [accessToken] and the backend's answers. *)
Variable accessToken : jsval.
Variable backend : call -> answer.

Definition request_with (authorization : option string) (c : call) : T body :=
  match backend c with
  | Answered d => (Returned (Object d), [Request c authorization (Answered d)])
  | AnsweredNull => (Returned Null, [Request c authorization AnsweredNull])
  | Raised e => (Thrown e, [Request c authorization (Raised e)])
  end.

Definition bearer : string := "Bearer " +:+ to_string accessToken.

(** [apiCall(endpoint, method, body)]. *)
Definition apiCall (c : call) : T body :=
  request_with (if truthy accessToken then Some bearer else None) c.

(** The first read of a property of a body ([kyc.status],
    [data.success]): the TypeError of the engine when the body is null. *)
Definition read (field : string) (b : body) : T data :=
  match b with
  | Object d => pure d
  | Null => (Thrown (null_read field), [])
  end.

(** [checkKYCStatus()]: the body of the answer as it is, unread. *)
Definition checkKYCStatus : T body :=
  if negb (truthy accessToken) then pure (Object (only_status "none"))
  else
    catch (apiCall KycStatus)
      (fun e => say (ConsoleError "Error fetching KYC status:" e)
                  (pure (Object (only_status "error")))).

(** [registerProperty(formData)]: the returned value is [data.property_id]
    or undefined.  [kyc.status] is read outside the try. *)
Definition registerProperty (formData : string) : T jsval :=
  if negb (truthy accessToken) then
    say (Alert "Please connect your wallet first") (pure JUndefined)
  else
    andThen checkKYCStatus (fun kyc =>
    andThen (read "status" kyc) (fun kyc =>
      if negb (strict_eq_str (status kyc) "verified") then
        say (Alert "Institutional Registration Blocked: KYC verification is required to tokenize assets.")
          (say (Navigate "kyc-verification.html") (pure JUndefined))
      else
        catch
          (andThen (apiCall (PropertiesRegister formData)) (fun data =>
           andThen (read "success" data) (fun d =>
             if success d then
               say (Alert "Property registered successfully!") (pure (property_id d))
             else
               say (Alert ("Error: " +:+ to_string (js_or (error d)
                                                          (JStr "Registration failed"))))
                 (pure JUndefined))))
          (fun e => say (ConsoleError "Registration error:" e)
                      (say (Alert "Failed to register property") (pure JUndefined))))).

(** [uploadDocument(propertyId, file, docType)]: the returned value is the
    parsed body, or undefined without a token. *)
Definition uploadDocument (propertyId file docType : string) : T (option body) :=
  if negb (truthy accessToken) then
    say (Alert "Please connect your wallet first") (pure None)
  else
    catch
      (andThen (request_with (Some bearer) (UploadDocument propertyId file docType))
         (fun data => pure (Some data)))
      (fun e => say (ConsoleError "Upload error:" e) (Thrown e, [])).

(** [verifyProperty(propertyId)] and [tokenizeProperty(propertyId)]. *)
Definition verifyProperty (propertyId : string) : T body :=
  catch (apiCall (PropertyVerify propertyId))
    (fun e => say (ConsoleError "Verification error:" e) (Thrown e, [])).

Definition tokenizeProperty (propertyId : string) : T body :=
  catch (apiCall (PropertyTokenize propertyId))
    (fun e => say (ConsoleError "Tokenization error:" e) (Thrown e, [])).

(** [submitKYC(kycData)]: true, false, or undefined without a token. *)
Definition submitKYC (kycData : string) : T (option bool) :=
  if negb (truthy accessToken) then
    say (Alert "Please connect your wallet first") (pure None)
  else
    catch
      (andThen (apiCall (KycVerify kycData)) (fun data =>
       andThen (read "success" data) (fun d =>
         if success d then
           say (Alert "KYC verification successful!") (pure (Some true))
         else
           say (Alert ("KYC verification failed: "
                       +:+ to_string (js_or (message d) (JStr "Unknown error"))))
             (pure (Some false)))))
      (fun e => say (ConsoleError "KYC error:" e)
                  (say (Alert "KYC submission failed") (pure (Some false)))).

End WithBackend.

(** The calls sent, in order. *)
Fixpoint calls (l : list effect) : list call :=
  match l with
  | [] => []
  | Request c _ _ :: l' => c :: calls l'
  | _ :: l' => calls l'
  end.

Fixpoint alerts (l : list effect) : list string :=
  match l with
  | [] => []
  | Alert msg :: l' => msg :: alerts l'
  | _ :: l' => alerts l'
  end.

Fixpoint navigations (l : list effect) : list string :=
  match l with
  | [] => []
  | Navigate href :: l' => href :: navigations l'
  | _ :: l' => navigations l'
  end.

End Issuance.

(** ** Further notions about the gateway *)

Section GatewayNotions.

Import PaymentGateway.

(** The slot is coherent: an order, the modal and both callbacks are there,
    the callbacks are those of the newest promise, and the modal shows the
    order's reference and, once it has one, its transaction id. *)
Definition coherent (st : state) : Prop :=
  exists o m,
    currentOrder st = Some o
    /\ modal st = Some m
    /\ resolveCallback st = Some (length (promises st) - 1)
    /\ rejectCallback st = Some (length (promises st) - 1)
    /\ promises st ≠ []
    /\ pgOrderRef m = orderRef o
    /\ (forall t, txnId o = Some t -> pgTxnId m = t).

(** A transaction id, when present, was made by a timeout. *)
Definition stamped (t : option string) : Prop :=
  t = None \/ exists sell rnd, t = Some (txnId_prefix sell +:+ rnd).

(** Promise [p] belongs to the order with reference [ref]: while it is
    pending and its resolve callback is held, that order is the current
    one; once resolved, it carries that reference. *)
Definition attributed (p : nat) (ref : string) (st : state) : Prop :=
  match promises st !! p with
  | Some Pending =>
      resolveCallback st = Some p ->
      exists o, currentOrder st = Some o /\ orderRef o = ref /\ stamped (txnId o)
  | Some (Fulfilled r) =>
      success r = true /\ order_id r = ref /\ stamped (payment_ref r)
  | Some (Rejected _) => True
  | None => False
  end.

(** The events by which the user answers: [complete] and [cancel]. *)
Definition acknowledges (e : event) : bool :=
  match e with
  | Complete | Cancel => true
  | _ => false
  end.

Definition is_checkout (e : event) : bool :=
  match e with
  | Checkout _ _ => true
  | _ => false
  end.

Definition is_timeout (e : event) : bool :=
  match e with
  | Timeout _ => true
  | _ => false
  end.

(** A transaction id, when present, carries the prefix of the mode [sell]. *)
Definition own_mode (sell : bool) (t : option string) : Prop :=
  t = None \/ exists rnd, t = Some (txnId_prefix sell +:+ rnd).

(** The checkout with options [o], reference [ref] and promise [p] is being
    served on its own: its order is the current one, every pending timeout
    was scheduled for it, and whatever transaction id the order or the
    resolved promise carries has the prefix of its mode. *)
Definition serial (p : nat) (o : options) (ref : string) (st : state) : Prop :=
  (exists o', currentOrder st = Some o' /\ order_options o' = o
              /\ orderRef o' = ref /\ own_mode (isSell (mode o)) (txnId o'))
  /\ (forall b, In b (timers st) -> b = isSell (mode o))
  /\ match promises st !! p with
     | Some (Fulfilled r) =>
         order_id r = ref /\ own_mode (isSell (mode o)) (payment_ref r)
     | Some _ => True
     | None => False
     end.

End GatewayNotions.

(** ** Further notions about trading *)

Section TradingNotions.

Import PaymentGateway App.

(** Why no price can be computed: the pricing request raised, or its body
    has no [property] (the message is then the TypeError's). *)
Definition pricing_error (env : environment) (propertyId : string) : option string :=
  match respond env (ReqProperty propertyId) with
  | Failed e => Some (message e)
  | Replied r =>
      match data_property r with
      | Some _ => None
      | None => Some (message no_total_value)
      end
  end.

End TradingNotions.

(** ** Further notions about the session *)

Section SessionNotions.

Import PaymentGateway App.

(** The alert of a completed connection. *)
Definition connected_message (accounts : list string) (isDemoMode : bool) : string :=
  "Wallet connected successfully!"
  +:+ (if isDemoMode then " (Demo Mode)" else "")
  +:+ newline +:+ newline
  +:+ "Address: " +:+ to_string (first_account accounts).

(** The three stored fields after a completed connection that adopted
    [token]. *)
Definition stored_session (accounts : list string) (isDemoMode : bool)
    (token : jsval) (storage : gmap string string) : gmap string string :=
  <["isDemoMode" := if isDemoMode then "true" else "false"]>
    (<["walletAddress" := to_string (first_account accounts)]>
       (<["accessToken" := to_string token]> storage)).

(** [updateWalletUI] raises on the button of the page when the world is
    [w]. *)
Definition button_update_raises (env : environment) (isDemoMode : bool) (w : world)
  : bool :=
  match outcome_of (updateWalletUI isDemoMode (connectBtn env) w) with
  | Throw _ => true
  | _ => false
  end.

End SessionNotions.

(** ** Further notions about issuance *)

Section IssuanceNotions.

Import Issuance.

(** The KYC status request is answered with [status: 'verified']. *)
Definition kyc_verified (backend : call -> answer) : bool :=
  match backend KycStatus with
  | Answered d => strict_eq_str (status d) "verified"
  | AnsweredNull => false
  | Raised _ => false
  end.

Definition kyc_blocked_message : string :=
  "Institutional Registration Blocked: KYC verification is required to tokenize assets.".

End IssuanceNotions.

(** * Properties of the payment gateway *)

Section GatewayFacts.

Import PaymentGateway.

Implicit Types (st : state) (ps : list promise) (p q : nat) (es : list event).

(** ** Promises are settled at most once *)

Lemma settle_length p v ps : length (settle p v ps) = length ps.
Proof.
  unfold settle. destruct (ps !! p) as [[]|]; auto using length_insert.
Qed.

Lemma settle_other p q v ps : q ≠ p -> settle p v ps !! q = ps !! q.
Proof.
  intros Hne. unfold settle.
  destruct (ps !! p) as [[]|]; auto using list_lookup_insert_ne.
Qed.

Lemma settle_pending p v ps :
  ps !! p = Some Pending -> settle p v ps !! p = Some v.
Proof.
  intros Hp. unfold settle. rewrite Hp.
  apply list_lookup_insert_eq. eauto using lookup_lt_Some.
Qed.

Lemma settle_settled p v ps x :
  ps !! p = Some x -> x ≠ Pending -> settle p v ps = ps.
Proof.
  intros Hp Hx. unfold settle. rewrite Hp. destruct x; congruence.
Qed.

Lemma settle_not_pending p v ps :
  v ≠ Pending -> settle p v ps !! p ≠ Some Pending.
Proof.
  intros Hv. destruct (ps !! p) as [x|] eqn:Hp.
  - destruct x.
    + rewrite (settle_pending _ _ _ Hp). congruence.
    + rewrite (settle_settled _ _ _ _ Hp), Hp; congruence.
    + rewrite (settle_settled _ _ _ _ Hp), Hp; congruence.
  - unfold settle. rewrite Hp. congruence.
Qed.

Lemma run_snoc st es e : run st (es ++ [e]) = step (run st es) e.
Proof. unfold run. now rewrite foldl_snoc. Qed.

Lemma run_cons st e es : run st (e :: es) = run (step st e) es.
Proof. reflexivity. Qed.

Local Ltac orphan_goal Hp :=
  unfold orphan; simpl; repeat split; simpl;
  try assumption; try congruence;
  try (rewrite settle_other; [exact Hp | congruence]).

Lemma orphan_step p st e : orphan p st -> orphan p (step st e).
Proof.
  intros (Hp & Hres & Hrej). destruct e as [o rnd|m|rnd| |]; simpl.
  - (* a further checkout takes a fresh index *)
    pose proof (lookup_lt_Some _ _ _ Hp) as Hlt.
    repeat split; simpl.
    + rewrite lookup_app_l; auto.
    + intros [= Heq]. lia.
    + intros [= Heq]. lia.
  - unfold process.
    destruct (currentOrder st), (modal st); orphan_goal Hp.
  - unfold timeout. destruct (timers st) as [|sell rest]; [orphan_goal Hp|].
    unfold timeout_callback; simpl.
    destruct (modal st); [|orphan_goal Hp].
    destruct (currentOrder st); orphan_goal Hp.
  - unfold complete. destruct (modal st); [|orphan_goal Hp].
    destruct (resolveCallback st) as [r|] eqn:Hr; [|orphan_goal Hp].
    destruct (currentOrder st); orphan_goal Hp.
  - unfold cancel. destruct (modal st); [|orphan_goal Hp].
    destruct (rejectCallback st) as [r|] eqn:Hr; orphan_goal Hp.
Qed.

Lemma orphan_run p es : forall st, orphan p st -> orphan p (run st es).
Proof.
  induction es as [|e es IH]; intros st H; [exact H|].
  rewrite run_cons. apply IH, orphan_step, H.
Qed.

(** A checkout over an open order turns the open order's promise into an
    orphan. *)
Lemma triggerCheckout_orphans p o rnd st :
  promises st !! p = Some Pending ->
  orphan p (snd (triggerCheckout o rnd st)).
Proof.
  intros Hp. pose proof (lookup_lt_Some _ _ _ Hp) as Hlt.
  repeat split; simpl.
  - rewrite lookup_app_l; auto.
  - intros [= Heq]. lia.
  - intros [= Heq]. lia.
Qed.

(** ** Method selection does not touch the order *)

Lemma run_process_frame (methods : list string) : forall st,
  is_Some (modal st) ->
  let st' := run st (map Process methods) in
  currentOrder st' = currentOrder st
  /\ resolveCallback st' = resolveCallback st
  /\ promises st' = promises st
  /\ is_Some (modal st').
Proof.
  induction methods as [|m ms IH]; intros st Hm; [now repeat split|].
  simpl map. rewrite run_cons.
  assert (Hstep : currentOrder (step st (Process m)) = currentOrder st
                  /\ resolveCallback (step st (Process m)) = resolveCallback st
                  /\ promises (step st (Process m)) = promises st
                  /\ is_Some (modal (step st (Process m)))).
  { simpl. unfold process. destruct Hm as [d Hd]. rewrite Hd.
    destruct (currentOrder st) eqn:Ho; simpl; rewrite ?Hd;
      repeat split; eauto. }
  destruct Hstep as (Ho & Hr & Hp & Hm').
  destruct (IH _ Hm') as (Ho' & Hr' & Hp' & Hm'').
  cbv zeta. repeat split; [congruence..|exact Hm''].
Qed.

(** [complete] on an order without transaction id. *)
Lemma complete_without_txnId st o p m :
  currentOrder st = Some o ->
  txnId o = None ->
  resolveCallback st = Some p ->
  promises st !! p = Some Pending ->
  modal st = Some m ->
  fst (complete st) = Returns
  /\ promises (snd (complete st)) !! p
     = Some (Fulfilled {| success := true; payment_ref := None;
                          order_id := orderRef o |}).
Proof.
  intros Ho Ht Hr Hp Hm. unfold complete. rewrite Hm, Hr, Ho. simpl.
  split; [reflexivity|]. rewrite <- Ht. now apply settle_pending.
Qed.

(** ** Prefixes *)

Lemma orderRef_prefixes_apart (s t : string) :
  orderRef_prefix true +:+ s ≠ orderRef_prefix false +:+ t.
Proof. discriminate. Qed.

Lemma txnId_prefixes_apart (s t : string) :
  txnId_prefix true +:+ s ≠ txnId_prefix false +:+ t.
Proof. discriminate. Qed.

Lemma txnId_never_orderRef (b b' : bool) (s t : string) :
  txnId_prefix b +:+ s ≠ orderRef_prefix b' +:+ t.
Proof. destruct b, b'; discriminate. Qed.

End GatewayFacts.

(** C1 (as stated, refuted): with the buy order of promise 0 open, a second
    [triggerCheckout] is not rejected and does not leave the slot alone: it
    returns the pending promise 1 and takes over [currentOrder] and both
    callbacks. *)
Lemma triggerCheckout_open_not_rejected : ~ rejects_when_open.
Proof.
  intros H.
  specialize (H (PaymentGateway.run PaymentGateway.init
                   [PaymentGateway.Checkout buy_options "A1"])
                sell_options "B2" eq_refl).
  destruct H as [[e He] _]. vm_compute in He. discriminate He.
Qed.

(** C1 (amended): a [triggerCheckout] made while an order is open (the
    promise [p] of the resolve callback is pending) is accepted: it returns a
    new pending promise, installs the new order and the new promise's
    callbacks, and the earlier promise stays pending whatever happens to the
    gateway afterwards. *)
Theorem triggerCheckout_open_overwrites
  (st : PaymentGateway.state) (o : PaymentGateway.options) (rnd : string) (p : nat) :
  PaymentGateway.resolveCallback st = Some p ->
  PaymentGateway.promises st !! p = Some PaymentGateway.Pending ->
  let q := fst (PaymentGateway.triggerCheckout o rnd st) in
  let st' := snd (PaymentGateway.triggerCheckout o rnd st) in
  q ≠ p
  /\ PaymentGateway.promises st' !! q = Some PaymentGateway.Pending
  /\ PaymentGateway.currentOrder st'
     = Some {| PaymentGateway.order_options := o;
               PaymentGateway.orderRef :=
                 PaymentGateway.orderRef_prefix
                   (PaymentGateway.isSell (PaymentGateway.mode o)) +:+ rnd;
               PaymentGateway.txnId := None |}
  /\ PaymentGateway.resolveCallback st' = Some q
  /\ PaymentGateway.rejectCallback st' = Some q
  /\ forall es,
       PaymentGateway.promises (PaymentGateway.run st' es) !! p
       = Some PaymentGateway.Pending.
Proof.
  intros Hres Hp q st'.
  pose proof (lookup_lt_Some _ _ _ Hp) as Hlt.
  repeat split.
  - subst q; simpl. lia.
  - subst q st'; simpl.
    rewrite lookup_app_r by lia. now rewrite Nat.sub_diag.
  - intros es.
    apply (orphan_run p es st'). subst st'.
    now apply triggerCheckout_orphans.
Qed.

Lemma triggerCheckout_open_overwrites_witness :
  let st := PaymentGateway.run PaymentGateway.init
              [PaymentGateway.Checkout buy_options "A1"] in
  PaymentGateway.order_open st = true
  /\ PaymentGateway.promises
       (PaymentGateway.run (snd (PaymentGateway.triggerCheckout sell_options "B2" st))
          [PaymentGateway.Complete; PaymentGateway.Cancel]) !! 0
     = Some PaymentGateway.Pending.
Proof.
  split; [reflexivity|].
  apply (triggerCheckout_open_overwrites
           (PaymentGateway.run PaymentGateway.init
              [PaymentGateway.Checkout buy_options "A1"])
           sell_options "B2" 0 eq_refl eq_refl).
Defined.

(** C2 (as stated, refuted): after a checkout, [complete()] and [cancel()]
    both return and leave [currentOrder] in place. *)
Lemma complete_does_not_clear_slot : ~ clears_slot.
Proof.
  intros H.
  destruct (H (PaymentGateway.run PaymentGateway.init
                 [PaymentGateway.Checkout buy_options "A1"])
              _ (or_introl eq_refl)) as [Ho _].
  vm_compute in Ho. discriminate Ho.
Qed.

(** C2 (amended): [complete()] and [cancel()] never change [currentOrder]
    or the callback pair; when they return, the modal is hidden and the
    promise of the callback they call is no longer pending (an acknowledged
    or cancelled order is not open any more, but it stays in the slot until
    the next [triggerCheckout] replaces it). *)
Theorem complete_cancel_keep_slot (st : PaymentGateway.state) :
  (PaymentGateway.currentOrder (snd (PaymentGateway.complete st))
   = PaymentGateway.currentOrder st
   /\ PaymentGateway.resolveCallback (snd (PaymentGateway.complete st))
      = PaymentGateway.resolveCallback st
   /\ PaymentGateway.rejectCallback (snd (PaymentGateway.complete st))
      = PaymentGateway.rejectCallback st)
  /\ (PaymentGateway.currentOrder (snd (PaymentGateway.cancel st))
      = PaymentGateway.currentOrder st
      /\ PaymentGateway.resolveCallback (snd (PaymentGateway.cancel st))
         = PaymentGateway.resolveCallback st
      /\ PaymentGateway.rejectCallback (snd (PaymentGateway.cancel st))
         = PaymentGateway.rejectCallback st)
  /\ (forall st',
        PaymentGateway.complete st = (PaymentGateway.Returns, st') ->
        (PaymentGateway.modal_display <$> PaymentGateway.modal st') = Some false
        /\ forall p, PaymentGateway.resolveCallback st = Some p ->
                     PaymentGateway.promises st' !! p ≠ Some PaymentGateway.Pending)
  /\ (forall st',
        PaymentGateway.cancel st = (PaymentGateway.Returns, st') ->
        (PaymentGateway.modal_display <$> PaymentGateway.modal st') = Some false
        /\ forall p, PaymentGateway.rejectCallback st = Some p ->
                     PaymentGateway.promises st' !! p ≠ Some PaymentGateway.Pending).
Proof.
  split; [|split; [|split]].
  - unfold PaymentGateway.complete.
    destruct (PaymentGateway.modal st) eqn:Hm,
      (PaymentGateway.resolveCallback st) eqn:Hr,
      (PaymentGateway.currentOrder st) eqn:Ho; cbn; repeat split; congruence.
  - unfold PaymentGateway.cancel.
    destruct (PaymentGateway.modal st) eqn:Hm,
      (PaymentGateway.rejectCallback st) eqn:Hr; cbn; repeat split; congruence.
  - intros st'. unfold PaymentGateway.complete.
    destruct (PaymentGateway.modal st); [|discriminate].
    destruct (PaymentGateway.resolveCallback st) as [q|].
    + destruct (PaymentGateway.currentOrder st); [|discriminate].
      intros [= <-]. split; [reflexivity|].
      intros p [= ->]. cbn. now apply settle_not_pending.
    + intros [= <-]. split; [reflexivity|]. intros p [=].
  - intros st'. unfold PaymentGateway.cancel.
    destruct (PaymentGateway.modal st); [|discriminate].
    destruct (PaymentGateway.rejectCallback st) as [q|].
    + intros [= <-]. split; [reflexivity|].
      intros p [= ->]. cbn. now apply settle_not_pending.
    + intros [= <-]. split; [reflexivity|]. intros p [=].
Qed.

Lemma complete_cancel_keep_slot_witness :
  let st := PaymentGateway.run PaymentGateway.init
              [PaymentGateway.Checkout buy_options "A1"] in
  PaymentGateway.complete st = (PaymentGateway.Returns, snd (PaymentGateway.complete st))
  /\ PaymentGateway.cancel st = (PaymentGateway.Returns, snd (PaymentGateway.cancel st))
  /\ PaymentGateway.promises (snd (PaymentGateway.complete st)) !! 0
     ≠ Some PaymentGateway.Pending
  /\ PaymentGateway.promises (snd (PaymentGateway.cancel st)) !! 0
     ≠ Some PaymentGateway.Pending.
Proof.
  pose (st := PaymentGateway.run PaymentGateway.init
                [PaymentGateway.Checkout buy_options "A1"]).
  destruct (complete_cancel_keep_slot st) as (_ & _ & Hc & Hx).
  repeat split.
  - exact (proj2 (Hc _ eq_refl) 0 eq_refl).
  - exact (proj2 (Hx _ eq_refl) 0 eq_refl).
Defined.

Section CheckoutLifecycle.

Import PaymentGateway.

(** C9 (as stated, refuted): a sell checkout made while a buy order is being
    processed is shown the success panel by the buy order's timeout and, once
    acknowledged, resolves with the transaction id [TXN_C3], which does not
    carry the payout prefix. *)
Lemma txnId_prefix_of_earlier_order : ~ txnId_follows_mode.
Proof.
  intros H.
  specialize (H [Checkout buy_options "A1"; Process "UPI"]
                sell_options "B2"
                [Process "UPI Payout"; Timeout "C3"; Complete]
                {| success := true; payment_ref := Some "TXN_C3";
                   order_id := "SELL_B2" |}
                "TXN_C3" eq_refl eq_refl).
  vm_compute in H. discriminate H.
Qed.

Lemma serial_checkout (st : state) (o : options) (rnd : string) :
  timers st = [] ->
  serial (length (promises st)) o (orderRef_prefix (isSell (mode o)) +:+ rnd)
    (step st (Checkout o rnd)).
Proof.
  intros Ht. unfold serial. cbn. rewrite Ht.
  rewrite lookup_app_r by lia. rewrite Nat.sub_diag. cbn.
  repeat split.
  - eexists. repeat split. now left.
  - intros b [].
Qed.

Lemma serial_step (p : nat) (o : options) (ref : string) (st : state) (e : event) :
  is_checkout e = false ->
  serial p o ref st -> serial p o ref (step st e).
Proof.
  intros He ((o' & Ho & Hopt & Href & Hown) & Htim & Hp).
  destruct (promises st !! p) as [x|] eqn:Hx; [|contradiction].
  destruct e as [o0 rnd|m|rnd| |]; try discriminate He; cbn.
  - (* process *)
    unfold process. rewrite Ho. destruct (modal st) as [d|]; cbn.
    + unfold serial. cbn. rewrite Ho, Hx. repeat split; eauto.
      intros b [Hb|[<-|[]]]%in_app_or; [now apply Htim|now rewrite Hopt].
    + unfold serial. rewrite Ho, Hx. repeat split; eauto.
  - (* timeout *)
    unfold timeout. destruct (timers st) as [|sell rest] eqn:Ht.
    + cbn. unfold serial. rewrite Ho, Hx, Ht. repeat split; eauto.
    + assert (Hsell : sell = isSell (mode o)) by (apply Htim; now left).
      assert (Hrest : forall b, In b rest -> b = isSell (mode o))
        by (intros b Hb; apply Htim; now right).
      unfold timeout_callback. cbn. destruct (modal st) as [d|]; cbn.
      * rewrite Ho. cbn. unfold serial. cbn. rewrite Ho, Hx.
        repeat split; eauto.
        eexists. split; [reflexivity|]. cbn. repeat split; auto.
        right. rewrite Hsell. eauto.
      * unfold serial. cbn. rewrite Ho, Hx. repeat split; eauto.
  - (* complete *)
    unfold complete. destruct (modal st) as [d|]; cbn;
      [|unfold serial; rewrite Ho, Hx; repeat split; eauto].
    destruct (resolveCallback st) as [q|]; cbn;
      [|unfold serial; cbn; rewrite Ho, Hx; repeat split; eauto].
    rewrite Ho. cbn. unfold serial. cbn. rewrite Ho.
    repeat split; eauto.
    destruct (decide (p = q)) as [<-|Hne].
    + destruct x.
      * rewrite (settle_pending _ _ _ Hx). cbn. now split.
      * rewrite (settle_settled _ _ _ _ Hx), Hx by discriminate. exact Hp.
      * rewrite (settle_settled _ _ _ _ Hx), Hx by discriminate. exact Hp.
    + rewrite settle_other, Hx by exact Hne. exact Hp.
  - (* cancel *)
    unfold cancel. destruct (modal st) as [d|]; cbn;
      [|unfold serial; rewrite Ho, Hx; repeat split; eauto].
    destruct (rejectCallback st) as [q|]; cbn;
      [|unfold serial; cbn; rewrite Ho, Hx; repeat split; eauto].
    unfold serial. cbn. rewrite Ho.
    repeat split; eauto.
    destruct (decide (p = q)) as [<-|Hne].
    + destruct x.
      * now rewrite (settle_pending _ _ _ Hx).
      * rewrite (settle_settled _ _ _ _ Hx), Hx by discriminate. exact Hp.
      * rewrite (settle_settled _ _ _ _ Hx), Hx by discriminate. exact Hp.
    + rewrite settle_other, Hx by exact Hne. exact Hp.
Qed.

Lemma serial_run (p : nat) (o : options) (ref : string) (es : list event) :
  forall st,
    forallb (fun e => negb (is_checkout e)) es = true ->
    serial p o ref st -> serial p o ref (run st es).
Proof.
  induction es as [|e es IH]; intros st Hes H; [exact H|].
  cbn [forallb] in Hes. apply andb_true_iff in Hes as [He Hes].
  rewrite run_cons. apply IH; [exact Hes|].
  apply serial_step; [|exact H]. now destruct (is_checkout e).
Qed.

(** The oldest pending timeout survives everything but a timeout. *)
Lemma oldest_timer_kept (sell : bool) (es : list event) :
  forall st,
    forallb (fun e => negb (is_timeout e)) es = true ->
    (exists rest, timers st = sell :: rest) ->
    is_Some (currentOrder st) -> is_Some (modal st) ->
    (exists rest, timers (run st es) = sell :: rest)
    /\ is_Some (currentOrder (run st es)) /\ is_Some (modal (run st es)).
Proof.
  induction es as [|e es IH]; intros st Hes Ht Ho Hm; [auto|].
  cbn [forallb] in Hes. apply andb_true_iff in Hes as [He Hes].
  rewrite run_cons. destruct Ht as [rest Ht], Ho as [o Ho], Hm as [d Hm].
  apply IH; [exact Hes|..];
    destruct e as [o0 rnd|m|rnd| |]; try discriminate He; cbn;
    unfold process, complete, cancel; rewrite ?Ho, ?Hm; cbn;
    try destruct (resolveCallback st); try destruct (rejectCallback st); cbn;
    rewrite ?Ht, ?Ho, ?Hm; cbn; eauto.
Qed.

(** A timeout stamps the current order with the mode captured by the
    [process] call that scheduled it. *)
Lemma timeout_uses_captured_mode (st : state) (o : order) (method rnd : string)
    (es : list event) :
  currentOrder st = Some o ->
  is_Some (modal st) ->
  timers st = [] ->
  forallb (fun e => negb (is_timeout e)) es = true ->
  txnId <$> currentOrder (run st (Process method :: es ++ [Timeout rnd]))
  = Some (Some (txnId_prefix (isSell (mode (order_options o))) +:+ rnd)).
Proof.
  intros Ho [d Hm] Ht Hes.
  rewrite app_comm_cons, run_snoc, run_cons.
  remember (step st (Process method)) as st1 eqn:E1.
  assert (H1 : exists rest, timers st1 = isSell (mode (order_options o)) :: rest).
  { subst st1. cbn. unfold process. rewrite Ho, Hm. cbn. rewrite Ht. eauto. }
  assert (Ho1 : is_Some (currentOrder st1))
    by (subst st1; cbn; unfold process; rewrite Ho, Hm; cbn; eauto).
  assert (Hm1 : is_Some (modal st1))
    by (subst st1; cbn; unfold process; rewrite Ho, Hm; cbn; eauto).
  clear E1.
  destruct (oldest_timer_kept _ es st1 Hes H1 Ho1 Hm1)
    as ([rest Hr] & [o2 Ho2] & [d2 Hm2]).
  remember (run st1 es) as st2 eqn:E2. clear E2.
  cbn. unfold timeout. rewrite Hr. unfold timeout_callback. cbn.
  rewrite Hm2, Ho2. cbn. now rewrite Ho2.
Qed.

(** C9 (amended): the order reference carries the prefix of the order's mode
    ([SELL_] for sell, [ORDER_] otherwise) and the two cannot be confused.  A
    transaction id carries the prefix ([PAYOUT_] or [TXN_]) of the mode that
    [process] captured when it scheduled the timeout: the mode of the order
    current at that call, whatever order is current when the timeout runs.
    It is therefore the prefix of the checkout's own mode whenever no timeout
    is pending at [triggerCheckout] and no further [triggerCheckout] follows,
    through any [process] calls, timeouts, [complete] and [cancel] calls; in
    particular the run checkout, [process], timeout, [complete] resolves
    with the own-mode transaction id and reference.  A transaction id never
    starts like an order reference. *)
Theorem checkout_prefixes
  (st : state) (o : options) (rnd1 method rnd2 : string) :
  timers st = [] ->
  let sell := isSell (mode o) in
  promises (run st [Checkout o rnd1; Process method; Timeout rnd2; Complete])
    !! length (promises st)
  = Some (Fulfilled {| success := true;
                       payment_ref := Some (txnId_prefix sell +:+ rnd2);
                       order_id := orderRef_prefix sell +:+ rnd1 |})
  /\ (forall es r t,
        forallb (fun e => negb (is_checkout e)) es = true ->
        promises (run st (Checkout o rnd1 :: es)) !! length (promises st)
        = Some (Fulfilled r) ->
        payment_ref r = Some t ->
        order_id r = orderRef_prefix sell +:+ rnd1
        /\ exists rnd, t = txnId_prefix sell +:+ rnd)
  /\ (forall st' o' es,
        currentOrder st' = Some o' ->
        is_Some (modal st') ->
        timers st' = [] ->
        forallb (fun e => negb (is_timeout e)) es = true ->
        txnId <$> currentOrder (run st' (Process method :: es ++ [Timeout rnd2]))
        = Some (Some (txnId_prefix (isSell (mode (order_options o'))) +:+ rnd2)))
  /\ (forall s t, orderRef_prefix true +:+ s ≠ orderRef_prefix false +:+ t)
  /\ (forall s t, txnId_prefix true +:+ s ≠ txnId_prefix false +:+ t)
  /\ (forall b b' s t, txnId_prefix b +:+ s ≠ orderRef_prefix b' +:+ t).
Proof.
  intros Ht sell.
  split; [|split; [|split;
    [|auto using orderRef_prefixes_apart, txnId_prefixes_apart,
                 txnId_never_orderRef]]].
  - unfold run; simpl. unfold timeout; simpl. rewrite Ht; simpl.
    apply settle_pending.
    rewrite lookup_app_r by lia. now rewrite Nat.sub_diag.
  - intros es r t Hes Hr Hpay.
    pose proof (serial_run _ _ _ es _ Hes (serial_checkout st o rnd1 Ht))
      as (_ & _ & Hp).
    rewrite <- run_cons in Hp. rewrite Hr in Hp.
    destruct Hp as (Hid & [Hnone | [rnd Hsome]]); [congruence|].
    subst sell. split; [exact Hid|]. exists rnd. congruence.
  - intros st' o' es Ho Hm Ht' Hes.
    exact (timeout_uses_captured_mode st' o' method rnd2 es Ho Hm Ht' Hes).
Qed.

Lemma checkout_prefixes_witness :
  promises (run init [Checkout sell_options "B2"; Process "UPI Payout";
                      Timeout "C3"; Complete]) !! 0
  = Some (Fulfilled {| success := true;
                       payment_ref := Some "PAYOUT_C3";
                       order_id := "SELL_B2" |})
  /\ (exists rnd, "PAYOUT_D4" = txnId_prefix (isSell (mode sell_options)) +:+ rnd)
  /\ txnId <$> currentOrder
                 (run (run init [Checkout buy_options "A1"])
                    (Process "UPI" :: [Checkout sell_options "B2"] ++ [Timeout "C3"]))
     = Some (Some "TXN_C3").
Proof.
  pose proof (checkout_prefixes init sell_options "B2" "UPI" "C3" eq_refl)
    as (Hrun & Hown & Hcap & _).
  split; [|split].
  - exact (proj1 (checkout_prefixes init sell_options "B2" "UPI Payout" "C3"
                    eq_refl)).
  - exact (proj2 (Hown [Process "UPI Payout"; Process "Bank Transfer";
                        Timeout "C3"; Timeout "D4"; Complete; Cancel]
                       {| success := true; payment_ref := Some "PAYOUT_D4";
                          order_id := "SELL_B2" |}
                       "PAYOUT_D4" eq_refl eq_refl eq_refl)).
  - exact (Hcap (run init [Checkout buy_options "A1"]) _
             [Checkout sell_options "B2"] eq_refl
             ltac:(eexists; reflexivity) eq_refl eq_refl).
Defined.

(** C10: when [complete()] is called after [triggerCheckout] with no timeout
    having run in between (whether [process] was never called or was called
    any number of times), the promise of that checkout is resolved with
    [success: true], no [payment_ref], and the order reference made at
    checkout. *)
Theorem complete_before_timeout
  (st : state) (o : options) (rnd : string) (methods : list string) :
  promises (run st (Checkout o rnd :: map Process methods ++ [Complete]))
    !! length (promises st)
  = Some (Fulfilled {| success := true;
                       payment_ref := None;
                       order_id := orderRef_prefix (isSell (mode o)) +:+ rnd |}).
Proof.
  rewrite run_cons, run_snoc.
  set (st1 := step st (Checkout o rnd)).
  assert (Hm1 : is_Some (modal st1)) by (subst st1; simpl; eauto).
  destruct (run_process_frame methods st1 Hm1) as (Ho & Hr & Hp & [m Hm]).
  set (st2 := run st1 (map Process methods)) in *.
  assert (Hpend : promises st2 !! length (promises st) = Some Pending).
  { rewrite Hp. subst st1; simpl.
    rewrite lookup_app_r by lia. now rewrite Nat.sub_diag. }
  assert (Ho2 : currentOrder st2
                = Some {| order_options := o;
                          orderRef := orderRef_prefix (isSell (mode o)) +:+ rnd;
                          txnId := None |})
    by (rewrite Ho; reflexivity).
  assert (Hr2 : resolveCallback st2 = Some (length (promises st)))
    by (rewrite Hr; reflexivity).
  exact (proj2 (complete_without_txnId st2 _ _ m Ho2 eq_refl Hr2 Hpend Hm)).
Qed.

End CheckoutLifecycle.

(** * Properties of the wallet session and of trading *)

Section AppFacts.

Import PaymentGateway App.

Implicit Types (env : environment) (w : world) (l : list effect).

(** Symbolic execution of the monadic code: unfold the combinators and split
    on every value the control flow inspects. *)
Local Ltac unfold_m :=
  cbv [bind ret throw try_catch get modify emit alert console_error
       apiCall fetch checkout property_of saveToken clearToken
       setItem removeItem outcome_of world_of log_of report].

(** ** No session, no trade *)

Lemma buyTokens_no_token env (propertyId : string) (tokenAmount : float) w :
  truthy (accessToken w) = false ->
  buyTokens env propertyId tokenAmount w
  = (Ok RUndefined, w, [Alert "Please connect your wallet first"]).
Proof. intros H. unfold buyTokens. unfold_m. now rewrite H. Qed.

Lemma sellTokens_no_token env (propertyId : string) (tokenAmount : float) w :
  truthy (accessToken w) = false ->
  sellTokens env propertyId tokenAmount w
  = (Ok RUndefined, w, [Alert "Please connect your wallet first"]).
Proof. intros H. unfold sellTokens. unfold_m. now rewrite H. Qed.

(** ** Settlement needs an approval *)

Local Arguments await_checkout : simpl never.
Local Arguments js_or : simpl never.
Local Arguments totalAmount : simpl never.

Local Ltac trade_cases :=
  unfold_m;
  repeat match goal with
    | |- context [truthy ?t] => destruct (truthy t) eqn:?; cbn
    | |- context [respond ?e ?r] => destruct (respond e r) as [?data|?err] eqn:?; cbn
    | |- context [data_property ?d] => destruct (data_property d) eqn:?; cbn
    | |- context [await_checkout ?e ?o ?g] =>
        destruct (await_checkout e o g) as [[|?res|?rej] ?gw] eqn:?; cbn
    | |- context [success ?r] => destruct (success r) eqn:?; cbn
    | |- context [data_success ?d] => destruct (data_success d) eqn:?; cbn
    | |- context [error_success ?c] => destruct (error_success c) eqn:?; cbn
    end.

Local Ltac in_log H :=
  cbn in H; intuition (try discriminate); simplify_eq; cbn in *; try congruence;
  try match goal with
    | H1 : ?b = true, H2 : negb ?b = true |- _ => rewrite H1 in H2; discriminate H2
    end.

Lemma buyTokens_settles_after_approval env (propertyId : string) (tokenAmount : float)
    w o outcome :
  In (GatewayCheckout o outcome) (log_of (buyTokens env propertyId tokenAmount w)) ->
  approved outcome = false ->
  settlement_calls (log_of (buyTokens env propertyId tokenAmount w)) = 0.
Proof.
  unfold buyTokens. trade_cases; intros Hin Happ; try reflexivity.
  all: in_log Hin.
Qed.

Lemma sellTokens_settles_after_approval env (propertyId : string) (tokenAmount : float)
    w o outcome :
  In (GatewayCheckout o outcome) (log_of (sellTokens env propertyId tokenAmount w)) ->
  approved outcome = false ->
  settlement_calls (log_of (sellTokens env propertyId tokenAmount w)) = 0.
Proof.
  unfold sellTokens. trade_cases; intros Hin Happ; try reflexivity.
  all: in_log Hin.
Qed.

Lemma settle_made_at p q v ps :
  gateway_made v -> made_at q ps -> made_at q (settle p v ps).
Proof.
  intros Hv Hq x. destruct (decide (q = p)) as [->|Hne].
  - destruct (ps !! p) as [[]|] eqn:Hp.
    + rewrite (settle_pending _ _ _ Hp). now intros [= <-].
    + rewrite (settle_settled _ _ _ _ Hp) by discriminate. apply Hq.
    + rewrite (settle_settled _ _ _ _ Hp) by discriminate. apply Hq.
    + unfold settle. rewrite Hp. apply Hq.
  - rewrite settle_other by exact Hne. apply Hq.
Qed.

Lemma made_at_step q (st : PaymentGateway.state) (e : event) :
  made_at q (promises st) -> made_at q (promises (step st e)).
Proof.
  intros Hq. destruct e as [o rnd|m|rnd| |]; cbn.
  - intros x Hx. apply lookup_app_Some in Hx as [Hx|[_ Hx]]; [now apply Hq|].
    apply list_lookup_singleton_Some in Hx as [_ <-]. exact I.
  - unfold process. destruct (currentOrder st), (modal st); exact Hq.
  - unfold timeout. destruct (timers st); [exact Hq|].
    unfold timeout_callback; cbn.
    destruct (modal st); [|exact Hq]. destruct (currentOrder st); exact Hq.
  - unfold complete. destruct (modal st); [|exact Hq].
    destruct (resolveCallback st); [|exact Hq].
    destruct (currentOrder st); [|exact Hq].
    cbn. now apply settle_made_at.
  - unfold cancel. destruct (modal st); [|exact Hq].
    destruct (rejectCallback st); [|exact Hq].
    cbn. now apply settle_made_at.
Qed.

Lemma made_at_run q (es : list event) : forall st : PaymentGateway.state,
  made_at q (promises st) -> made_at q (promises (run st es)).
Proof.
  induction es as [|e es IH]; intros st H; [exact H|].
  rewrite run_cons. now apply IH, made_at_step.
Qed.

Lemma await_checkout_made env (o : options) (g : PaymentGateway.state) :
  gateway_made (fst (await_checkout env o g)).
Proof.
  unfold await_checkout. cbn.
  match goal with |- context [run ?g1 _] => set (st1 := g1) end.
  assert (H1 : made_at (length (promises g)) (promises st1)).
  { intros x. subst st1; cbn. rewrite lookup_app_r by lia.
    rewrite Nat.sub_diag. now intros [= <-]. }
  apply (made_at_run _ (clicks env)) in H1.
  destruct (promises (run st1 (clicks env)) !! length (promises g)) as [x|] eqn:Hx;
    cbn; [now apply H1 | exact I].
Qed.

(** ** The alerts of a trade that did not settle *)

Local Ltac absurd_outcome :=
  match goal with
  | H : await_checkout ?e ?o ?g = (?out, _) |- _ =>
      let Hm := fresh "Hmade" in
      pose proof (await_checkout_made e o g) as Hm;
      rewrite H in Hm; cbn in Hm; try subst; cbn in *; try congruence
  end.

Lemma buyTokens_alerts_settlement_failed env (propertyId : string)
    (tokenAmount : float) w req a rep :
  In (Fetch req a rep) (log_of (buyTokens env propertyId tokenAmount w)) ->
  is_settlement req = true ->
  reply_failed rep = true ->
  exists m,
    alerts (log_of (buyTokens env propertyId tokenAmount w))
    = ["Purchase failed after payment: " +:+ m]
    \/ alerts (log_of (buyTokens env propertyId tokenAmount w))
       = ["Failed to buy tokens: " +:+ m].
Proof.
  unfold buyTokens. trade_cases; intros Hin Hreq Hrep; in_log Hin; eauto.
Qed.

Lemma buyTokens_alerts_not_approved env (propertyId : string)
    (tokenAmount : float) w o outcome :
  In (GatewayCheckout o outcome) (log_of (buyTokens env propertyId tokenAmount w)) ->
  approved outcome = false ->
  alerts (log_of (buyTokens env propertyId tokenAmount w)) = []
  \/ alerts (log_of (buyTokens env propertyId tokenAmount w))
     = ["Payment cancelled or failed."].
Proof.
  unfold buyTokens. trade_cases; intros Hin Happ; in_log Hin; auto;
    absurd_outcome.
Qed.

Lemma sellTokens_alerts_settlement_failed env (propertyId : string)
    (tokenAmount : float) w req a rep :
  In (Fetch req a rep) (log_of (sellTokens env propertyId tokenAmount w)) ->
  is_settlement req = true ->
  reply_failed rep = true ->
  (exists m, alerts (log_of (sellTokens env propertyId tokenAmount w))
             = ["Sale failed: " +:+ m])
  \/ (exists e, rep = Failed e
                /\ alerts (log_of (sellTokens env propertyId tokenAmount w))
                   = ["Failed to sell tokens: " +:+ message e]).
Proof.
  unfold sellTokens. trade_cases; intros Hin Hreq Hrep; in_log Hin; eauto.
Qed.

Lemma sellTokens_alerts_not_approved env (propertyId : string)
    (tokenAmount : float) w o outcome :
  In (GatewayCheckout o outcome) (log_of (sellTokens env propertyId tokenAmount w)) ->
  approved outcome = false ->
  alerts (log_of (sellTokens env propertyId tokenAmount w)) = []
  \/ alerts (log_of (sellTokens env propertyId tokenAmount w))
     = ["Payout cancelled or failed."]
  \/ alerts (log_of (sellTokens env propertyId tokenAmount w))
     = ["Failed to sell tokens: undefined"].
Proof.
  unfold sellTokens. trade_cases; intros Hin Happ; in_log Hin; auto.
Qed.

(** A sale whose settlement failed against a sale whose payout was not
    approved: the alerts differ unless the settlement request raised an error
    whose message is the text [undefined]. *)
Lemma sellTokens_alerts_apart env1 env2 (id1 id2 : string) (n1 n2 : float) w1 w2
    req a rep o outcome :
  is_settlement req = true ->
  reply_failed rep = true ->
  approved outcome = false ->
  In (Fetch req a rep) (log_of (sellTokens env1 id1 n1 w1)) ->
  In (GatewayCheckout o outcome) (log_of (sellTokens env2 id2 n2 w2)) ->
  rep ≠ Failed {| message := "undefined" |} ->
  alerts (log_of (sellTokens env1 id1 n1 w1))
  ≠ alerts (log_of (sellTokens env2 id2 n2 w2)).
Proof.
  intros Hreq Hrep Happ Hin1 Hin2 Hne Heq.
  destruct (sellTokens_alerts_settlement_failed _ _ _ _ _ _ _ Hin1 Hreq Hrep)
    as [[m H1]|[e [-> H1]]];
    destruct (sellTokens_alerts_not_approved _ _ _ _ _ _ Hin2 Happ)
    as [H2|[H2|H2]];
    rewrite H1, H2 in Heq; try discriminate Heq.
  apply Hne. f_equal. destruct e as [msg]. f_equal. cbn in Heq.
  injection Heq as Heq. exact Heq.
Qed.

Lemma buyTokens_alerts_apart env1 env2 (id1 id2 : string) (n1 n2 : float) w1 w2
    req a rep o outcome :
  is_settlement req = true ->
  reply_failed rep = true ->
  approved outcome = false ->
  In (Fetch req a rep) (log_of (buyTokens env1 id1 n1 w1)) ->
  In (GatewayCheckout o outcome) (log_of (buyTokens env2 id2 n2 w2)) ->
  alerts (log_of (buyTokens env1 id1 n1 w1))
  ≠ alerts (log_of (buyTokens env2 id2 n2 w2)).
Proof.
  intros Hreq Hrep Happ Hin1 Hin2 Heq.
  destruct (buyTokens_alerts_settlement_failed _ _ _ _ _ _ _ Hin1 Hreq Hrep)
    as [m [H1|H1]];
    destruct (buyTokens_alerts_not_approved _ _ _ _ _ _ Hin2 Happ) as [H2|H2];
    rewrite H1, H2 in Heq; discriminate Heq.
Qed.

(** ** The report of a failed settlement *)

Lemma buyTokens_settlement_failed_report env (propertyId : string)
    (tokenAmount : float) w req a rep :
  In (Fetch req a rep) (log_of (buyTokens env propertyId tokenAmount w)) ->
  is_settlement req = true ->
  reply_failed rep = true ->
  report (buyTokens env propertyId tokenAmount w)
  = (Ok RUndefined, [buy_failure_alert rep]).
Proof.
  unfold buyTokens. trade_cases; intros Hin Hreq Hrep; in_log Hin.
Qed.

Lemma sellTokens_settlement_failed_report env (propertyId : string)
    (tokenAmount : float) w req a rep :
  In (Fetch req a rep) (log_of (sellTokens env propertyId tokenAmount w)) ->
  is_settlement req = true ->
  reply_failed rep = true ->
  report (sellTokens env propertyId tokenAmount w)
  = (Ok RNull, [sell_failure_alert rep]).
Proof.
  unfold sellTokens. trade_cases; intros Hin Hreq Hrep; in_log Hin.
Qed.

(** The alerts "Purchase failed after payment: ..." and "Sale failed: ..."
    are shown after a refused settlement only. *)
Lemma buyTokens_refusal_alert env (propertyId : string) (tokenAmount : float) w m :
  alerts (log_of (buyTokens env propertyId tokenAmount w))
  = ["Purchase failed after payment: " +:+ m] ->
  settlement_refused_in (log_of (buyTokens env propertyId tokenAmount w)).
Proof.
  unfold buyTokens, settlement_refused_in.
  trade_cases; intros H; cbn in H; try discriminate H.
  all: eexists _, _, _; cbn; split; [eauto 10|]; split; [reflexivity|assumption].
Qed.

Lemma sellTokens_refusal_alert env (propertyId : string) (tokenAmount : float) w m :
  alerts (log_of (sellTokens env propertyId tokenAmount w))
  = ["Sale failed: " +:+ m] ->
  settlement_refused_in (log_of (sellTokens env propertyId tokenAmount w)).
Proof.
  unfold sellTokens, settlement_refused_in.
  trade_cases; intros H; cbn in H; try discriminate H.
  all: eexists _, _, _; cbn; split; [eauto 10|]; split; [reflexivity|assumption].
Qed.

(** ** The amount handed to the gateway *)

Lemma buyTokens_checkouts env (propertyId : string) (tokenAmount : float) w r p :
  truthy (accessToken w) = true ->
  respond env (ReqProperty propertyId) = Replied r ->
  data_property r = Some p ->
  checkouts (log_of (buyTokens env propertyId tokenAmount w))
  = [ {| amount := totalAmount p tokenAmount;
         name := payer_name w;
         email := payer_email w;
         PaymentGateway.propertyId := propertyId;
         mode := JUndefined |} ].
Proof.
  unfold buyTokens. trade_cases; intros; simplify_eq; reflexivity.
Qed.

Lemma sellTokens_checkouts env (propertyId : string) (tokenAmount : float) w r p :
  truthy (accessToken w) = true ->
  respond env (ReqProperty propertyId) = Replied r ->
  data_property r = Some p ->
  checkouts (log_of (sellTokens env propertyId tokenAmount w))
  = [ {| amount := totalAmount p tokenAmount;
         name := payer_name w;
         email := payer_email w;
         PaymentGateway.propertyId := propertyId;
         mode := JStr "sell" |} ].
Proof.
  unfold sellTokens. trade_cases; intros; simplify_eq; reflexivity.
Qed.

(** ** Connecting and disconnecting *)

(** [updateWalletUI] returns or raises; it leaves the world as it is and
    has no effect that is logged. *)
Lemma updateWalletUI_cases (isDemoMode : bool) (btn : option button) w :
  (exists b, updateWalletUI isDemoMode btn w = (Ok b, w, []))
  \/ (exists e, updateWalletUI isDemoMode btn w = (Throw (Err e), w, [])).
Proof.
  unfold updateWalletUI, bind, get, ret, throw.
  destruct btn as [b|]; [|eauto].
  destruct (currentUser w) as [u|]; [|eauto].
  destruct (json_or (wallet_address u) (getItem "walletAddress" w)) as [[| |a]|];
    eauto.
Qed.

Local Arguments updateWalletUI : simpl never.

Local Ltac connect_cases :=
  unfold handleWalletConnection, register_request; unfold_m;
  repeat match goal with
    | |- context [respond ?e ?r] => destruct (respond e r) as [?data|?err] eqn:?; cbn
    | |- context [data_success ?d] => destruct (data_success d) eqn:?; cbn
    | |- context [N.eqb ?a ?b] => destruct (N.eqb a b) eqn:?; cbn
    | |- context [if ?b then _ else _] => is_var b; destruct b; cbn
    | |- context [updateWalletUI ?d ?b ?w] =>
        destruct (updateWalletUI_cases d b w) as [[?btn ?Hui]|[?err ?Hui]];
        rewrite Hui; cbn
    end.

Lemma handleWalletConnection_login env (a : string) (rest : list string)
    (isDemoMode : bool) w r (login : response) :
  respond env (register_request a isDemoMode) = Replied r ->
  data_success r || N.eqb (status r) 400 = true ->
  respond env (ReqLogin (JStr a)) = Replied login ->
  let x := handleWalletConnection env (a :: rest) isDemoMode w in
  requests (log_of x) = [register_request a isDemoMode; ReqLogin (JStr a)]
  /\ accessToken (world_of x) = access_token login
  /\ currentUser (world_of x) = data_user login
  /\ localStorage (world_of x) !! "accessToken" = Some (to_string (access_token login)).
Proof.
  connect_cases; intros; simplify_eq; cbn in *; try congruence;
    repeat split; try done;
    by rewrite !lookup_insert_ne, lookup_insert_eq by done.
Qed.

Lemma handleWalletConnection_register env (a : string) (rest : list string)
    (isDemoMode : bool) w r :
  respond env (register_request a isDemoMode) = Replied r ->
  data_success r || N.eqb (status r) 400 = false ->
  let x := handleWalletConnection env (a :: rest) isDemoMode w in
  requests (log_of x) = [register_request a isDemoMode]
  /\ accessToken (world_of x) = access_token r
  /\ currentUser (world_of x)
     = Some {| wallet_address := JStr a; user_name := JUndefined;
               user_email := JUndefined |}
  /\ localStorage (world_of x) !! "accessToken" = Some (to_string (access_token r)).
Proof.
  connect_cases; intros; simplify_eq; cbn in *; try congruence;
    repeat split; try done;
    by rewrite !lookup_insert_ne, lookup_insert_eq by done.
Qed.

Lemma disconnectWallet_clears env w :
  peraWallet w = false \/ wallet_disconnect env = None ->
  let x := disconnectWallet env w in
  outcome_of x = Ok tt
  /\ alerts (log_of x) = ["Wallet disconnected"]
  /\ accessToken (world_of x) = JNull
  /\ currentUser (world_of x) = None
  /\ localStorage (world_of x)
     = delete "isDemoMode" (delete "walletAddress"
         (delete "accessToken" (localStorage w)))
  /\ gateway (world_of x) = gateway w.
Proof.
  unfold disconnectWallet. unfold_m.
  destruct (peraWallet w), (wallet_disconnect env); cbn;
    intros [?|?]; simplify_eq; repeat split.
Qed.

Lemma disconnectWallet_provider_fails env w e :
  peraWallet w = true ->
  wallet_disconnect env = Some e ->
  disconnectWallet env w
  = (Ok tt, w, [WalletDisconnect; ConsoleError "Disconnect error:" (Err e)]).
Proof.
  intros Hp He. unfold disconnectWallet. unfold_m. now rewrite Hp, He.
Qed.

End AppFacts.

Section SessionAndTrading.

Import PaymentGateway App.

(** C3 (as stated, refuted): with a wallet provider attached whose
    [disconnect()] rejects, [disconnectWallet] leaves the stored token in
    place. *)
Lemma disconnect_keeps_session_on_provider_error : ~ disconnect_always_clears.
Proof.
  intros H.
  destruct (H (environment_of backend_ok [] (Some {| message := "Session closed" |}))
              (connected true)) as [Htok _].
  vm_compute in Htok. discriminate Htok.
Qed.

(** C3 (amended): when no wallet provider is attached or the provider's
    [disconnect()] succeeds, [disconnectWallet] removes the three stored
    fields (token, wallet address, demo flag), sets [accessToken] to null and
    [currentUser] to null, and reports "Wallet disconnected"; when the
    provider's [disconnect()] rejects, the error is only logged and neither
    the storage nor the in-memory session is touched. *)
Theorem disconnect_clears_unless_provider_fails (env : environment) (w : world) :
  (peraWallet w = false \/ wallet_disconnect env = None ->
   let w' := world_of (disconnectWallet env w) in
   outcome_of (disconnectWallet env w) = Ok tt
   /\ alerts (log_of (disconnectWallet env w)) = ["Wallet disconnected"]
   /\ accessToken w' = JNull
   /\ currentUser w' = None
   /\ localStorage w' !! "accessToken" = None
   /\ localStorage w' !! "walletAddress" = None
   /\ localStorage w' !! "isDemoMode" = None
   /\ (forall key, key ≠ "accessToken" -> key ≠ "walletAddress" ->
                   key ≠ "isDemoMode" ->
                   localStorage w' !! key = localStorage w !! key))
  /\ (forall e, peraWallet w = true -> wallet_disconnect env = Some e ->
                disconnectWallet env w
                = (Ok tt, w, [WalletDisconnect;
                              ConsoleError "Disconnect error:" (Err e)])).
Proof.
  split.
  - intros Hok.
    destruct (disconnectWallet_clears env w Hok) as (Hr & Ha & Ht & Hu & Hls & _).
    cbv zeta. rewrite Hls.
    repeat split; auto.
    + now rewrite !lookup_delete_ne, lookup_delete_eq by done.
    + now rewrite lookup_delete_ne, lookup_delete_eq by done.
    + now rewrite lookup_delete_eq.
    + intros key H1 H2 H3. now rewrite !lookup_delete_ne by done.
  - intros e. apply disconnectWallet_provider_fails.
Qed.

Lemma disconnect_clears_unless_provider_fails_witness :
  localStorage (world_of (disconnectWallet (environment_of backend_ok [] None)
                            (connected true))) !! "accessToken" = None
  /\ disconnectWallet
       (environment_of backend_ok [] (Some {| message := "Session closed" |}))
       (connected true)
     = (Ok tt, connected true,
        [WalletDisconnect;
         ConsoleError "Disconnect error:" (Err {| message := "Session closed" |})]).
Proof.
  split.
  - apply (proj1 (disconnect_clears_unless_provider_fails
                    (environment_of backend_ok [] None) (connected true))).
    right. reflexivity.
  - apply (proj2 (disconnect_clears_unless_provider_fails
                    (environment_of backend_ok []
                       (Some {| message := "Session closed" |}))
                    (connected true))); reflexivity.
Defined.

(** C4 (as stated, refuted): after a successful registration with token
    [T1] the code still logs in and adopts the login token [T2]; and when the
    identity exists and the login response carries no token, the token is
    left undefined. *)
Lemma identity_token_counterexamples :
  ~ adopts_registration_token /\ ~ token_never_unset.
Proof.
  split; intros H.
  - specialize (H (environment_of backend_fresh_identity [] None)
                  "DEMOX1" [] true disconnected _ eq_refl eq_refl).
    vm_compute in H. discriminate H.
  - specialize (H (environment_of backend_login_without_token [] None)
                  "DEMOX1" [] true disconnected _ _ eq_refl eq_refl).
    vm_compute in H. discriminate H.
Qed.

(** C4 (amended): when the registration response reports success or has
    status 400 (the identity exists), the manager sends a login request and
    adopts the [access_token] and [user] of the login response, whatever they
    are; otherwise it sends no login request and adopts the [access_token] of
    the registration response with the profile [{ wallet_address }].  In both
    cases the adopted token is what is stored, so the session's token is set
    exactly when the adopted response carries one. *)
Theorem establish_identity_adopts
  (env : environment) (a : string) (rest : list string) (isDemoMode : bool)
  (w : world) (r : response) :
  respond env (register_request a isDemoMode) = Replied r ->
  let x := handleWalletConnection env (a :: rest) isDemoMode w in
  (data_success r || N.eqb (status r) 400 = true ->
   forall login, respond env (ReqLogin (JStr a)) = Replied login ->
     requests (log_of x) = [register_request a isDemoMode; ReqLogin (JStr a)]
     /\ accessToken (world_of x) = access_token login
     /\ currentUser (world_of x) = data_user login
     /\ localStorage (world_of x) !! "accessToken"
        = Some (to_string (access_token login)))
  /\ (data_success r || N.eqb (status r) 400 = false ->
      requests (log_of x) = [register_request a isDemoMode]
      /\ accessToken (world_of x) = access_token r
      /\ currentUser (world_of x)
         = Some {| wallet_address := JStr a; user_name := JUndefined;
                   user_email := JUndefined |}
      /\ localStorage (world_of x) !! "accessToken"
         = Some (to_string (access_token r))).
Proof.
  intros Hreg x. split.
  - intros Hif login Hlogin.
    exact (handleWalletConnection_login env a rest isDemoMode w r login
             Hreg Hif Hlogin).
  - intros Hif.
    exact (handleWalletConnection_register env a rest isDemoMode w r Hreg Hif).
Qed.

Lemma establish_identity_adopts_witness :
  accessToken (world_of (handleWalletConnection
                           (environment_of backend_fresh_identity [] None)
                           ["DEMOX1"] true disconnected))
  = JStr "T2"
  /\ requests (log_of (handleWalletConnection
                         (environment_of backend_unavailable [] None)
                         ["DEMOX1"] true disconnected))
     = [register_request "DEMOX1" true].
Proof.
  split.
  - refine (proj1 (proj2 (proj1
              (establish_identity_adopts
                 (environment_of backend_fresh_identity [] None)
                 "DEMOX1" [] true disconnected _ eq_refl)
              eq_refl _ eq_refl))).
  - refine (proj1 (proj2
              (establish_identity_adopts
                 (environment_of backend_unavailable [] None)
                 "DEMOX1" [] true disconnected _ eq_refl)
              eq_refl)).
Defined.

(** C5: in every [buyTokens] or [sellTokens] call whose gateway promise was
    not approved (it was rejected by a cancellation, or resolved without
    success), no request is sent to [/api/trade/buy] or [/api/trade/sell]. *)
Theorem no_settlement_without_approval
  (env : environment) (propertyId : string) (tokenAmount : float) (w : world)
  (o : options) (outcome : promise) :
  approved outcome = false ->
  (In (GatewayCheckout o outcome) (log_of (buyTokens env propertyId tokenAmount w)) ->
   settlement_calls (log_of (buyTokens env propertyId tokenAmount w)) = 0)
  /\ (In (GatewayCheckout o outcome) (log_of (sellTokens env propertyId tokenAmount w)) ->
      settlement_calls (log_of (sellTokens env propertyId tokenAmount w)) = 0).
Proof.
  intros Happ. split; intros Hin.
  - exact (buyTokens_settles_after_approval env propertyId tokenAmount w o outcome
             Hin Happ).
  - exact (sellTokens_settles_after_approval env propertyId tokenAmount w o outcome
             Hin Happ).
Qed.

Lemma no_settlement_without_approval_witness :
  settlement_calls
    (log_of (buyTokens (environment_of backend_ok cancelling None) "P1" 10%float
               (connected false))) = 0
  /\ settlement_calls
       (log_of (sellTokens (environment_of backend_ok cancelling None) "P1" 10%float
                  (connected false))) = 0.
Proof.
  split.
  - refine (proj1 (no_settlement_without_approval
                     (environment_of backend_ok cancelling None) "P1" 10%float
                     (connected false)
                     {| amount := 500000%float; name := JUndefined;
                        email := JUndefined; propertyId := "P1";
                        mode := JUndefined |}
                     (Rejected {| error_success := false;
                                  error := "User cancelled" |})
                     eq_refl) _).
    vm_compute. right. left. reflexivity.
  - refine (proj2 (no_settlement_without_approval
                     (environment_of backend_ok cancelling None) "P1" 10%float
                     (connected false)
                     {| amount := 500000%float; name := JUndefined;
                        email := JUndefined; propertyId := "P1";
                        mode := JStr "sell" |}
                     (Rejected {| error_success := false;
                                  error := "User cancelled" |})
                     eq_refl) _).
    vm_compute. right. left. reflexivity.
Defined.

(** C6 (as stated, refuted): a settlement request that raises after an
    approved payment is handled by the catch block of the whole function, so
    it is reported exactly like a pricing request that raised before any
    payment was asked for: the same alert "Failed to buy tokens: Failed to
    fetch" (for a sale "Failed to sell tokens: Failed to fetch") and the same
    returned value.  Nor does the returned value tell a refused settlement
    from a cancelled payment. *)
Lemma raised_settlement_like_raised_pricing :
  ~ settlement_failure_reported_apart buyTokens
  /\ ~ settlement_failure_reported_apart sellTokens
  /\ outcome_of (buyTokens (environment_of backend_refuses_settlement approving None)
                   "P1" 10%float (connected false))
     = outcome_of (buyTokens (environment_of backend_ok cancelling None)
                     "P1" 10%float (connected false))
  /\ outcome_of (sellTokens (environment_of backend_refuses_settlement approving None)
                   "P1" 10%float (connected false))
     = outcome_of (sellTokens (environment_of backend_ok cancelling None)
                     "P1" 10%float (connected false)).
Proof.
  split; [|split; [|split; vm_compute; reflexivity]]; intros H;
    apply (H (environment_of (backend_settlement_down "Failed to fetch") approving None)
             (environment_of (backend_pricing_down "Failed to fetch") approving None)
             "P1" "P1" 10%float 10%float (connected false) (connected false)).
  - eexists _, _, _.
    split; [vm_compute; right; right; left; reflexivity|split; reflexivity].
  - intros (req & a & rep & Hin & Hreq & _). vm_compute in Hin.
    destruct Hin as [Hin|[Hin|[Hin|[]]]]; try discriminate Hin.
    injection Hin as <- _ _. discriminate Hreq.
  - vm_compute. reflexivity.
  - eexists _, _, _.
    split; [vm_compute; right; right; left; reflexivity|split; reflexivity].
  - intros (req & a & rep & Hin & Hreq & _). vm_compute in Hin.
    destruct Hin as [Hin|[Hin|[Hin|[]]]]; try discriminate Hin.
    injection Hin as <- _ _. discriminate Hreq.
  - vm_compute. reflexivity.
Qed.

(** C6 (amended): when the payment step succeeded and the settlement request
    failed, the trade shows exactly one alert.  A refused settlement shows
    "Purchase failed after payment: " (for a sale "Sale failed: ") followed
    by the error of the answer or "Unknown error"; a settlement request that
    raised shows the alert of the catch block, "Failed to buy tokens: " (for
    a sale "Failed to sell tokens: ") followed by the message of the error.
    [buyTokens] then returns undefined and [sellTokens] null.  The report of
    a refused settlement differs from the report of every trade without a
    refused settlement.  The report of any failed settlement differs, in
    [buyTokens], from the report of every purchase whose payment was not
    approved, and in [sellTokens], when the request did not raise an error
    with the message "undefined", from the report of every sale whose payout
    was not approved. *)
Theorem settlement_failure_report_distinct
  (env : environment) (id : string) (n : float) (w : world)
  (req : request) (a : option string) (rep : reply) :
  is_settlement req = true ->
  reply_failed rep = true ->
  (In (Fetch req a rep) (log_of (buyTokens env id n w)) ->
   report (buyTokens env id n w) = (Ok RUndefined, [buy_failure_alert rep])
   /\ (forall env' (id' : string) (n' : float) w',
         (exists d, rep = Replied d) ->
         ~ settlement_refused_in (log_of (buyTokens env' id' n' w')) ->
         report (buyTokens env id n w) ≠ report (buyTokens env' id' n' w'))
   /\ (forall env' (id' : string) (n' : float) w' o outcome,
         In (GatewayCheckout o outcome) (log_of (buyTokens env' id' n' w')) ->
         approved outcome = false ->
         report (buyTokens env id n w) ≠ report (buyTokens env' id' n' w')))
  /\ (In (Fetch req a rep) (log_of (sellTokens env id n w)) ->
      report (sellTokens env id n w) = (Ok RNull, [sell_failure_alert rep])
      /\ (forall env' (id' : string) (n' : float) w',
            (exists d, rep = Replied d) ->
            ~ settlement_refused_in (log_of (sellTokens env' id' n' w')) ->
            report (sellTokens env id n w) ≠ report (sellTokens env' id' n' w'))
      /\ (forall env' (id' : string) (n' : float) w' o outcome,
            In (GatewayCheckout o outcome) (log_of (sellTokens env' id' n' w')) ->
            approved outcome = false ->
            rep ≠ Failed {| message := "undefined" |} ->
            report (sellTokens env id n w) ≠ report (sellTokens env' id' n' w'))).
Proof.
  intros Hreq Hrep. split; intros Hin.
  - pose proof (buyTokens_settlement_failed_report _ _ _ _ _ _ _ Hin Hreq Hrep)
      as Hrp.
    split; [exact Hrp|split].
    + intros env' id' n' w' [d ->] Hno Heq. apply Hno.
      rewrite Hrp in Heq. apply (f_equal snd) in Heq.
      unfold report in Heq; cbn [snd buy_failure_alert] in Heq.
      symmetry in Heq. exact (buyTokens_refusal_alert _ _ _ _ _ Heq).
    + intros env' id' n' w' o outcome Hin' Happ Heq.
      apply (f_equal snd) in Heq. unfold report in Heq; cbn [snd] in Heq.
      revert Heq.
      exact (buyTokens_alerts_apart env env' id id' n n' w w' req a rep o outcome
               Hreq Hrep Happ Hin Hin').
  - pose proof (sellTokens_settlement_failed_report _ _ _ _ _ _ _ Hin Hreq Hrep)
      as Hrp.
    split; [exact Hrp|split].
    + intros env' id' n' w' [d ->] Hno Heq. apply Hno.
      rewrite Hrp in Heq. apply (f_equal snd) in Heq.
      unfold report in Heq; cbn [snd sell_failure_alert] in Heq.
      symmetry in Heq. exact (sellTokens_refusal_alert _ _ _ _ _ Heq).
    + intros env' id' n' w' o outcome Hin' Happ Hne Heq.
      apply (f_equal snd) in Heq. unfold report in Heq; cbn [snd] in Heq.
      revert Heq.
      exact (sellTokens_alerts_apart env env' id id' n n' w w' req a rep o outcome
               Hreq Hrep Happ Hin Hin' Hne).
Qed.

Lemma settlement_failure_report_distinct_witness :
  report (buyTokens (environment_of backend_refuses_settlement approving None)
            "P1" 10%float (connected false))
  = (Ok RUndefined, ["Purchase failed after payment: Insufficient tokens"])
  /\ report (buyTokens (environment_of backend_refuses_settlement approving None)
               "P1" 10%float (connected false))
     ≠ report (buyTokens (environment_of (backend_pricing_down "Failed to fetch")
                            approving None)
                 "P1" 10%float (connected false))
  /\ report (sellTokens (environment_of (backend_settlement_down "Failed to fetch")
                            approving None)
               "P1" 10%float (connected false))
     = (Ok RNull, ["Failed to sell tokens: Failed to fetch"])
  /\ report (sellTokens (environment_of (backend_settlement_down "Failed to fetch")
                            approving None)
               "P1" 10%float (connected false))
     ≠ report (sellTokens (environment_of backend_ok cancelling None)
                 "P1" 10%float (connected false)).
Proof.
  assert (Hbuy : In (Fetch (ReqTradeBuy {| property_id := "P1";
                                           token_amount := 10%float;
                                           body_payment_ref := Some "TXN_C3";
                                           body_order_id := "ORDER_A1" |})
                       (Some "Bearer T1") (Replied refusal))
                    (log_of (buyTokens
                               (environment_of backend_refuses_settlement approving None)
                               "P1" 10%float (connected false))))
    by (vm_compute; right; right; left; reflexivity).
  assert (Hsell : In (Fetch (ReqTradeSell {| property_id := "P1";
                                             token_amount := 10%float;
                                             body_payment_ref := Some "PAYOUT_C3";
                                             body_order_id := "SELL_A1" |})
                        (Some "Bearer T1") (Failed {| message := "Failed to fetch" |}))
                     (log_of (sellTokens
                                (environment_of (backend_settlement_down "Failed to fetch")
                                   approving None)
                                "P1" 10%float (connected false))))
    by (vm_compute; right; right; left; reflexivity).
  destruct (proj1 (settlement_failure_report_distinct
                     (environment_of backend_refuses_settlement approving None)
                     "P1" 10%float (connected false)
                     (ReqTradeBuy {| property_id := "P1"; token_amount := 10%float;
                                     body_payment_ref := Some "TXN_C3";
                                     body_order_id := "ORDER_A1" |})
                     (Some "Bearer T1") (Replied refusal) eq_refl eq_refl)
              Hbuy) as (Hb1 & Hb2 & _).
  destruct (proj2 (settlement_failure_report_distinct
                     (environment_of (backend_settlement_down "Failed to fetch")
                        approving None)
                     "P1" 10%float (connected false)
                     (ReqTradeSell {| property_id := "P1"; token_amount := 10%float;
                                      body_payment_ref := Some "PAYOUT_C3";
                                      body_order_id := "SELL_A1" |})
                     (Some "Bearer T1") (Failed {| message := "Failed to fetch" |})
                     eq_refl eq_refl)
              Hsell) as (Hs1 & _ & Hs3).
  split; [exact Hb1|split; [|split; [exact Hs1|]]].
  - apply Hb2; [now exists refusal|].
    intros (req & a & d & Hin & Hreq & _). vm_compute in Hin.
    destruct Hin as [Hin|[Hin|[Hin|[]]]]; discriminate Hin.
  - apply (Hs3 _ _ _ _
             {| amount := 500000%float; name := JUndefined; email := JUndefined;
                propertyId := "P1"; mode := JStr "sell" |}
             (Rejected {| error_success := false; error := "User cancelled" |})).
    + vm_compute. right. left. reflexivity.
    + reflexivity.
    + discriminate.
Defined.

(** C7: without a truthy [accessToken], [buyTokens] and [sellTokens] show
    "Please connect your wallet first" and return at once: the world is
    unchanged, and the alert is their only effect (no request is sent and
    the gateway is not called). *)
Theorem trade_requires_session
  (env : environment) (propertyId : string) (tokenAmount : float) (w : world) :
  truthy (accessToken w) = false ->
  (buyTokens env propertyId tokenAmount w
   = (Ok RUndefined, w, [Alert "Please connect your wallet first"])
   /\ requests (log_of (buyTokens env propertyId tokenAmount w)) = []
   /\ checkouts (log_of (buyTokens env propertyId tokenAmount w)) = [])
  /\ (sellTokens env propertyId tokenAmount w
      = (Ok RUndefined, w, [Alert "Please connect your wallet first"])
      /\ requests (log_of (sellTokens env propertyId tokenAmount w)) = []
      /\ checkouts (log_of (sellTokens env propertyId tokenAmount w)) = []).
Proof.
  intros H.
  rewrite (buyTokens_no_token env propertyId tokenAmount w H).
  rewrite (sellTokens_no_token env propertyId tokenAmount w H).
  repeat split.
Qed.

Lemma trade_requires_session_witness :
  buyTokens (environment_of backend_ok approving None) "P1" 10%float disconnected
  = (Ok RUndefined, disconnected, [Alert "Please connect your wallet first"]).
Proof.
  exact (proj1 (proj1 (trade_requires_session
                         (environment_of backend_ok approving None)
                         "P1" 10%float disconnected eq_refl))).
Defined.

(** C8: with a session and a pricing response carrying the property,
    [buyTokens] and [sellTokens] call the gateway exactly once, with the
    amount [(total_value / total_tokens) * tokenAmount] computed from that
    response; for a total value of 50,000,000, 1000 tokens and 10 tokens
    traded the unit price is 50,000 and the amount 500,000. *)
Theorem gateway_amount
  (env : environment) (propertyId : string) (tokenAmount : float) (w : world)
  (r : response) (p : property) :
  truthy (accessToken w) = true ->
  respond env (ReqProperty propertyId) = Replied r ->
  data_property r = Some p ->
  map amount (checkouts (log_of (buyTokens env propertyId tokenAmount w)))
  = [ (total_value p / total_tokens p * tokenAmount)%float ]
  /\ map amount (checkouts (log_of (sellTokens env propertyId tokenAmount w)))
     = [ (total_value p / total_tokens p * tokenAmount)%float ]
  /\ (total_value sample_property / total_tokens sample_property)%float
     = 50000%float
  /\ totalAmount sample_property 10%float = 500000%float.
Proof.
  intros Htok Hres Hprop.
  rewrite (buyTokens_checkouts env propertyId tokenAmount w r p Htok Hres Hprop).
  rewrite (sellTokens_checkouts env propertyId tokenAmount w r p Htok Hres Hprop).
  repeat split.
Qed.

Lemma gateway_amount_witness :
  map amount (checkouts (log_of (buyTokens (environment_of backend_ok approving None)
                                   "P1" 10%float (connected false))))
  = [500000%float].
Proof.
  exact (proj1 (gateway_amount (environment_of backend_ok approving None)
                  "P1" 10%float (connected false)
                  sample_response sample_property eq_refl eq_refl eq_refl)).
Defined.

End SessionAndTrading.

(** * Further properties of the payment gateway *)

Section GatewayExtras.

Import PaymentGateway.

Implicit Types (st : state) (es : list event).

Lemma coherent_checkout st o rnd : coherent (step st (Checkout o rnd)).
Proof.
  cbn. eexists _, _. cbn. rewrite length_app; cbn.
  replace (length (promises st) + 1 - 1) with (length (promises st)) by lia.
  repeat split; try reflexivity.
  - destruct (promises st); discriminate.
  - discriminate.
Qed.

Lemma coherent_step st e : coherent st -> coherent (step st e).
Proof.
  destruct e as [o rnd|m|rnd| |]; [intros _; apply coherent_checkout|..];
    intros (o & d & Ho & Hm & Hr & Hj & Hne & Href & Htx); cbn.
  - unfold process. rewrite Ho, Hm. cbn.
    eexists _, _. cbn. repeat split; eauto.
  - unfold timeout. destruct (timers st) as [|sell rest].
    + cbn. eexists _, _. repeat split; eauto.
    + unfold timeout_callback. cbn. rewrite Hm, Ho. cbn.
      exists {| order_options := order_options o; orderRef := orderRef o;
                txnId := Some (txnId_prefix sell +:+ rnd) |}.
      eexists. cbn. rewrite Ho.
      repeat split; eauto. now intros t [= <-].
  - unfold complete. rewrite Hm, Hr, Ho. cbn.
    eexists _, _. cbn. rewrite settle_length.
    repeat split; eauto.
    intros Hnil. apply (f_equal length) in Hnil. rewrite settle_length in Hnil.
    destruct (promises st); [congruence|discriminate].
  - unfold cancel. rewrite Hm, Hj. cbn.
    eexists _, _. cbn. rewrite settle_length.
    repeat split; eauto.
    intros Hnil. apply (f_equal length) in Hnil. rewrite settle_length in Hnil.
    destruct (promises st); [congruence|discriminate].
Qed.

Lemma coherent_run es : forall st, coherent st -> coherent (run st es).
Proof.
  induction es as [|e es IH]; intros st H; [exact H|].
  rewrite run_cons. now apply IH, coherent_step.
Qed.

Lemma coherent_returns st (method rnd : string) :
  coherent st ->
  fst (process method st) = Returns
  /\ fst (timeout rnd st) = Returns
  /\ fst (complete st) = Returns
  /\ fst (cancel st) = Returns.
Proof.
  intros (o & d & Ho & Hm & Hr & Hj & _).
  unfold process, timeout, timeout_callback, complete, cancel.
  rewrite Ho, Hm, Hr, Hj. cbn. rewrite Ho, Hm.
  destruct (timers st); repeat split.
Qed.

Lemma run_no_checkout es :
  forallb (fun e => negb (is_checkout e)) es = true -> run init es = init.
Proof.
  induction es as [|e es IH]; [reflexivity|].
  cbn [forallb]. intros [He Hes]%andb_true_iff.
  rewrite run_cons. destruct e; try discriminate He; cbn; auto.
Qed.

Lemma coherent_after_checkout st (o : options) (rnd : string) es :
  coherent (run st (Checkout o rnd :: es)).
Proof. rewrite run_cons. apply coherent_run, coherent_checkout. Qed.

(** X1: once [triggerCheckout] has been called, whatever else has happened
    before or happens after, the slot is coherent: an order and the modal
    exist, both callbacks are those of the newest promise, and the modal
    shows the reference (and transaction id, once made) that [complete]
    will resolve with. *)
Theorem slot_coherent_after_checkout st (o : options) (rnd : string) es :
  coherent (run st (Checkout o rnd :: es)).
Proof. exact (coherent_after_checkout st o rnd es). Qed.

(** X2: on a page whose gateway has not been used, [process], [complete]
    and [cancel] raise a TypeError and change nothing as long as no checkout
    was made; after the first checkout none of the gateway's functions, nor
    a timeout, ever raises. *)
Theorem raises_only_before_first_checkout es (method rnd : string) :
  let st := run init es in
  (forallb (fun e => negb (is_checkout e)) es = true ->
   st = init
   /\ process method st = (Raises, st)
   /\ complete st = (Raises, st)
   /\ cancel st = (Raises, st))
  /\ (forallb (fun e => negb (is_checkout e)) es = false ->
      fst (process method st) = Returns
      /\ fst (timeout rnd st) = Returns
      /\ fst (complete st) = Returns
      /\ fst (cancel st) = Returns).
Proof.
  cbv zeta. split.
  - intros H. rewrite (run_no_checkout es H). repeat split.
  - intros H. apply coherent_returns.
    clear method rnd. revert H. generalize init.
    induction es as [|e es IH]; intros st; [discriminate|].
    cbn [forallb]. rewrite run_cons.
    destruct (is_checkout e) eqn:He; cbn.
    + intros _. destruct e; try discriminate He.
      apply coherent_run, coherent_checkout.
    + apply IH.
Qed.

Lemma raises_only_before_first_checkout_witness :
  complete (run init [Process "UPI"; Timeout "C3"; Cancel])
  = (Raises, run init [Process "UPI"; Timeout "C3"; Cancel])
  /\ fst (cancel (run init [Process "UPI"; Checkout buy_options "A1"; Complete]))
     = Returns.
Proof.
  split.
  - exact (proj1 (proj2 (proj2
             (proj1 (raises_only_before_first_checkout
                       [Process "UPI"; Timeout "C3"; Cancel] "UPI" "C3")
                    eq_refl)))).
  - exact (proj2 (proj2 (proj2
             (proj2 (raises_only_before_first_checkout
                       [Process "UPI"; Checkout buy_options "A1"; Complete]
                       "UPI" "C3")
                    eq_refl)))).
Defined.

Lemma settled_step st e p x :
  promises st !! p = Some x -> x ≠ Pending ->
  promises (step st e) !! p = Some x.
Proof.
  intros Hp Hx. pose proof (lookup_lt_Some _ _ _ Hp) as Hlt.
  assert (Hs : forall q v, settle q v (promises st) !! p = Some x).
  { intros q v. destruct (decide (p = q)) as [<-|Hne].
    - now rewrite (settle_settled _ _ _ _ Hp Hx).
    - now rewrite settle_other. }
  destruct e as [o rnd|m|rnd| |]; cbn.
  - now rewrite lookup_app_l.
  - unfold process. destruct (currentOrder st), (modal st); exact Hp.
  - unfold timeout. destruct (timers st); [exact Hp|].
    unfold timeout_callback; cbn.
    destruct (modal st); [|exact Hp]. destruct (currentOrder st); exact Hp.
  - unfold complete. destruct (modal st); [|exact Hp].
    destruct (resolveCallback st); [|exact Hp].
    destruct (currentOrder st); [apply Hs|exact Hp].
  - unfold cancel. destruct (modal st); [|exact Hp].
    destruct (rejectCallback st); [apply Hs|exact Hp].
Qed.

(** X3: a promise that has been resolved or rejected keeps its value for
    ever: no later [complete], [cancel], checkout or timeout changes it. *)
Theorem settled_for_ever st es (p : nat) (x : promise) :
  promises st !! p = Some x ->
  x ≠ Pending ->
  promises (run st es) !! p = Some x.
Proof.
  revert st. induction es as [|e es IH]; intros st Hp Hx; [exact Hp|].
  rewrite run_cons. apply IH; [|exact Hx]. now apply settled_step.
Qed.

Lemma settled_for_ever_witness :
  promises (run init [Checkout buy_options "A1"; Cancel; Process "UPI";
                      Timeout "C3"; Complete]) !! 0
  = Some (Rejected {| error_success := false; error := "User cancelled" |}).
Proof.
  exact (settled_for_ever (run init [Checkout buy_options "A1"; Cancel])
           [Process "UPI"; Timeout "C3"; Complete] 0 _ eq_refl
           ltac:(discriminate)).
Defined.

Lemma stamped_prefix (sell : bool) (rnd : string) :
  stamped (Some (txnId_prefix sell +:+ rnd)).
Proof. right. eauto. Qed.

Lemma process_frame (method : string) st :
  promises (snd (process method st)) = promises st
  /\ currentOrder (snd (process method st)) = currentOrder st
  /\ resolveCallback (snd (process method st)) = resolveCallback st.
Proof.
  unfold process. destruct (currentOrder st) eqn:Ho, (modal st); cbn; auto.
Qed.

Lemma timeout_frame (rnd : string) st :
  promises (snd (timeout rnd st)) = promises st
  /\ resolveCallback (snd (timeout rnd st)) = resolveCallback st
  /\ (currentOrder (snd (timeout rnd st)) = currentOrder st
      \/ exists o sell,
           currentOrder st = Some o
           /\ currentOrder (snd (timeout rnd st))
              = Some {| order_options := order_options o; orderRef := orderRef o;
                        txnId := Some (txnId_prefix sell +:+ rnd) |}).
Proof.
  unfold timeout. destruct (timers st) as [|sell rest]; cbn; [auto|].
  unfold timeout_callback; cbn.
  destruct (modal st); cbn; [|auto].
  destruct (currentOrder st) as [o|] eqn:Ho; cbn; rewrite ?Ho; [|auto].
  split; [congruence|]. split; [congruence|]. right. eauto.
Qed.

Lemma complete_frame st :
  currentOrder (snd (complete st)) = currentOrder st
  /\ resolveCallback (snd (complete st)) = resolveCallback st
  /\ (promises (snd (complete st)) = promises st
      \/ exists q o,
           resolveCallback st = Some q /\ currentOrder st = Some o
           /\ promises (snd (complete st))
              = settle q (Fulfilled {| success := true; payment_ref := txnId o;
                                       order_id := orderRef o |})
                  (promises st)).
Proof.
  unfold complete. destruct (modal st); cbn; [|auto].
  destruct (resolveCallback st) as [q|] eqn:Hq; cbn; [|auto].
  destruct (currentOrder st) as [o|] eqn:Ho; cbn; [|auto].
  split; [congruence|]. split; [congruence|]. right. eauto.
Qed.

Lemma cancel_frame st :
  currentOrder (snd (cancel st)) = currentOrder st
  /\ resolveCallback (snd (cancel st)) = resolveCallback st
  /\ (promises (snd (cancel st)) = promises st
      \/ exists q,
           promises (snd (cancel st))
           = settle q (Rejected {| error_success := false;
                                   error := "User cancelled" |})
               (promises st)).
Proof.
  unfold cancel. destruct (modal st); cbn; [|auto].
  destruct (rejectCallback st) as [q|]; cbn; [|auto].
  split; [congruence|]. split; [congruence|]. right. eauto.
Qed.

Lemma attributed_step (p : nat) (ref : string) st e :
  attributed p ref st -> attributed p ref (step st e).
Proof.
  unfold attributed. intros H.
  destruct (promises st !! p) as [x|] eqn:Hp; [|contradiction].
  pose proof (lookup_lt_Some _ _ _ Hp) as Hlt.
  destruct e as [o rnd|m|rnd| |]; cbn [step].
  - cbn. rewrite lookup_app_l, Hp by exact Hlt.
    destruct x; auto. intros [= Heq]. lia.
  - destruct (process_frame m st) as (-> & -> & ->). rewrite Hp. exact H.
  - destruct (timeout_frame rnd st) as (-> & -> & [-> | (o & sell & Ho & ->)]);
      rewrite Hp; [exact H|].
    destruct x; auto. intros Hr.
    destruct (H Hr) as (o' & Ho' & Href & _).
    assert (o' = o) as -> by congruence.
    eexists. split; [reflexivity|]. cbn. split; [exact Href|].
    apply stamped_prefix.
  - destruct (complete_frame st) as (-> & -> & [-> | (q & o & Hq & Ho & ->)]);
      [rewrite Hp; exact H|].
    destruct (decide (p = q)) as [<-|Hne].
    + destruct x.
      * rewrite (settle_pending _ _ _ Hp).
        destruct (H Hq) as (o' & Ho' & Href & Hst).
        assert (o' = o) as -> by congruence. now repeat split.
      * rewrite (settle_settled _ _ _ _ Hp), Hp by discriminate. exact H.
      * rewrite (settle_settled _ _ _ _ Hp), Hp by discriminate. exact H.
    + rewrite settle_other, Hp by exact Hne. exact H.
  - destruct (cancel_frame st) as (-> & -> & [-> | (q & ->)]);
      [rewrite Hp; exact H|].
    destruct (decide (p = q)) as [<-|Hne].
    + destruct x.
      * now rewrite (settle_pending _ _ _ Hp).
      * rewrite (settle_settled _ _ _ _ Hp), Hp by discriminate. exact H.
      * rewrite (settle_settled _ _ _ _ Hp), Hp by discriminate. exact H.
    + rewrite settle_other, Hp by exact Hne. exact H.
Qed.

Lemma attributed_run (p : nat) (ref : string) es :
  forall st, attributed p ref st -> attributed p ref (run st es).
Proof.
  induction es as [|e es IH]; intros st H; [exact H|].
  rewrite run_cons. now apply IH, attributed_step.
Qed.

(** X4: a checkout's promise is only ever resolved with [success: true] and
    the order reference made by that very checkout, and its [payment_ref] is
    absent or a transaction id made by a timeout, whatever state the gateway
    was in and whatever events (further checkouts included) follow. *)
Theorem resolved_with_own_reference st (o : options) (rnd : string) es
    (r : checkout_result) :
  promises (run st (Checkout o rnd :: es)) !! length (promises st)
  = Some (Fulfilled r) ->
  success r = true
  /\ order_id r = orderRef_prefix (isSell (mode o)) +:+ rnd
  /\ (payment_ref r = None
      \/ exists sell rnd', payment_ref r = Some (txnId_prefix sell +:+ rnd')).
Proof.
  intros Hr.
  assert (H : attributed (length (promises st))
                (orderRef_prefix (isSell (mode o)) +:+ rnd)
                (run st (Checkout o rnd :: es))).
  { rewrite run_cons. apply attributed_run.
    unfold attributed. cbn. rewrite lookup_app_r by lia.
    rewrite Nat.sub_diag. cbn. intros _.
    eexists. split; [reflexivity|]. split; [reflexivity|]. now left. }
  unfold attributed in H. rewrite Hr in H. exact H.
Qed.

Lemma resolved_with_own_reference_witness :
  order_id {| success := true; payment_ref := Some "TXN_C3"; order_id := "SELL_B2" |}
  = orderRef_prefix (isSell (mode sell_options)) +:+ "B2".
Proof.
  exact (proj1 (proj2
           (resolved_with_own_reference
              (run init [Checkout buy_options "A1"; Process "UPI"])
              sell_options "B2"
              [Process "UPI Payout"; Timeout "C3"; Complete]
              {| success := true; payment_ref := Some "TXN_C3";
                 order_id := "SELL_B2" |}
              eq_refl))).
Defined.

(** X5: [cancel()] called after [triggerCheckout], whether no method was
    chosen yet or [process] is already under way, rejects the checkout's
    promise with [{ success: false, error: 'User cancelled' }]. *)
Theorem cancel_rejects st (o : options) (rnd : string) (methods : list string) :
  promises (run st (Checkout o rnd :: map Process methods ++ [Cancel]))
    !! length (promises st)
  = Some (Rejected {| error_success := false; error := "User cancelled" |}).
Proof.
  rewrite app_comm_cons, run_snoc.
  pose proof (coherent_after_checkout st o rnd (map Process methods))
    as (o' & m & _ & Hm & _ & Hj & _).
  rewrite run_cons in *.
  set (st1 := step st (Checkout o rnd)) in *.
  assert (Hm1 : is_Some (modal st1)) by (subst st1; cbn; eauto).
  destruct (run_process_frame methods st1 Hm1) as (_ & _ & Hp & _).
  cbv zeta in Hp.
  set (st2 := run st1 (map Process methods)) in *.
  assert (Hlen : length (promises st2) - 1 = length (promises st)).
  { rewrite Hp. subst st1; cbn. rewrite length_app; cbn. lia. }
  rewrite Hlen in Hj.
  cbn. unfold cancel. rewrite Hm, Hj. cbn.
  apply settle_pending. rewrite Hp. subst st1; cbn.
  rewrite lookup_app_r by lia. now rewrite Nat.sub_diag.
Qed.

Lemma pending_step st e (p : nat) :
  acknowledges e = false ->
  promises st !! p = Some Pending ->
  promises (step st e) !! p = Some Pending.
Proof.
  intros He Hp. pose proof (lookup_lt_Some _ _ _ Hp) as Hlt.
  destruct e as [o rnd|m|rnd| |]; try discriminate He; cbn.
  - now rewrite lookup_app_l.
  - unfold process. destruct (currentOrder st), (modal st); exact Hp.
  - unfold timeout. destruct (timers st); [exact Hp|].
    unfold timeout_callback; cbn.
    destruct (modal st); [|exact Hp]. destruct (currentOrder st); exact Hp.
Qed.

Lemma pending_unless_acknowledged st (o : options) (rnd : string) es :
  forallb (fun e => negb (acknowledges e)) es = true ->
  promises (run st (Checkout o rnd :: es)) !! length (promises st) = Some Pending.
Proof.
  intros Hes. rewrite run_cons.
  assert (H1 : promises (step st (Checkout o rnd)) !! length (promises st)
               = Some Pending).
  { cbn. rewrite lookup_app_r by lia. now rewrite Nat.sub_diag. }
  revert H1 Hes. generalize (step st (Checkout o rnd)) as st1.
  induction es as [|e es IH]; intros st1 H1 Hes; [exact H1|].
  cbn [forallb] in Hes. apply andb_true_iff in Hes as [He Hes].
  rewrite run_cons. apply IH; [|exact Hes].
  apply pending_step; [|exact H1]. now destruct (acknowledges e).
Qed.

(** X6: nothing but [complete()] or [cancel()] settles a promise: as long as
    neither is called, the promise of a checkout stays pending, through any
    number of method choices, timeouts and further checkouts. *)
Theorem pending_until_acknowledged st (o : options) (rnd : string) es :
  forallb (fun e => negb (acknowledges e)) es = true ->
  promises (run st (Checkout o rnd :: es)) !! length (promises st) = Some Pending.
Proof. exact (pending_unless_acknowledged st o rnd es). Qed.

Lemma pending_until_acknowledged_witness :
  promises (run init [Checkout buy_options "A1"; Process "UPI"; Timeout "C3"]) !! 0
  = Some Pending.
Proof.
  exact (pending_until_acknowledged init buy_options "A1"
           [Process "UPI"; Timeout "C3"] eq_refl).
Defined.

End GatewayExtras.

(** * Further properties of trading *)

Section TradingExtras.

Import PaymentGateway App.

Implicit Types (env : environment) (w : world).

Local Arguments await_checkout : simpl never.
Local Arguments js_or : simpl never.
Local Arguments totalAmount : simpl never.

Local Ltac unfold_m :=
  cbv [bind ret throw try_catch get modify emit alert console_error
       apiCall fetch checkout property_of saveToken clearToken
       setItem removeItem outcome_of world_of log_of report].

Local Ltac trade_cases :=
  unfold_m;
  repeat match goal with
    | |- context [truthy ?t] => destruct (truthy t) eqn:?; cbn
    | |- context [respond ?e ?r] => destruct (respond e r) as [?data|?err] eqn:?; cbn
    | |- context [data_property ?d] => destruct (data_property d) eqn:?; cbn
    | |- context [await_checkout ?e ?o ?g] =>
        destruct (await_checkout e o g) as [[|?res|?rej] ?gw] eqn:?; cbn
    | |- context [success ?r] => destruct (success r) eqn:?; cbn
    | |- context [data_success ?d] => destruct (data_success d) eqn:?; cbn
    | |- context [error_success ?c] => destruct (error_success c) eqn:?; cbn
    end.

Local Ltac in_log H :=
  cbn in H; intuition (try discriminate); simplify_eq; cbn in *; try congruence;
  try match goal with
    | H1 : ?b = true, H2 : negb ?b = true |- _ => rewrite H1 in H2; discriminate H2
    end.

Local Ltac made :=
  match goal with
  | H : await_checkout ?e ?o ?g = (?out, _) |- _ =>
      let Hm := fresh "Hmade" in
      pose proof (await_checkout_made e o g) as Hm;
      rewrite H in Hm; cbn in Hm; try subst; cbn in *; try congruence
  end.

(** X7: a settlement request is only sent after the gateway resolved with
    success, and it carries what the caller asked for and what the gateway
    returned: the property and token amount of the call, and the
    [payment_ref] and [order_id] of the resolved checkout.  [buyTokens] only
    ever settles at [/api/trade/buy], [sellTokens] at [/api/trade/sell]. *)
Theorem settlement_carries_gateway_result
  env (propertyId : string) (tokenAmount : float) w
  (req : request) (a : option string) (rep : reply) :
  is_settlement req = true ->
  (In (Fetch req a rep) (log_of (buyTokens env propertyId tokenAmount w)) ->
   exists o r,
     In (GatewayCheckout o (Fulfilled r))
        (log_of (buyTokens env propertyId tokenAmount w))
     /\ success r = true
     /\ req = ReqTradeBuy {| property_id := propertyId;
                             token_amount := tokenAmount;
                             body_payment_ref := payment_ref r;
                             body_order_id := order_id r |})
  /\ (In (Fetch req a rep) (log_of (sellTokens env propertyId tokenAmount w)) ->
      exists o r,
        In (GatewayCheckout o (Fulfilled r))
           (log_of (sellTokens env propertyId tokenAmount w))
        /\ success r = true
        /\ req = ReqTradeSell {| property_id := propertyId;
                                 token_amount := tokenAmount;
                                 body_payment_ref := payment_ref r;
                                 body_order_id := order_id r |}).
Proof.
  intros Hreq. split.
  - revert Hreq. unfold buyTokens. trade_cases; intros Hreq Hin; in_log Hin;
      eexists _, _; (split; [right; left; reflexivity|]);
      (split; [|reflexivity]); now destruct (success res).
  - revert Hreq. unfold sellTokens. trade_cases; intros Hreq Hin; in_log Hin;
      eexists _, _; (split; [right; left; reflexivity|]);
      (split; [|reflexivity]); now destruct (success res).
Qed.

Lemma settlement_carries_gateway_result_witness :
  exists o r,
    In (GatewayCheckout o (Fulfilled r))
       (log_of (buyTokens (environment_of backend_ok approving None) "P1" 10%float
                  (connected false)))
    /\ success r = true
    /\ ReqTradeBuy {| property_id := "P1"; token_amount := 10%float;
                      body_payment_ref := Some "TXN_C3";
                      body_order_id := "ORDER_A1" |}
       = ReqTradeBuy {| property_id := "P1"; token_amount := 10%float;
                        body_payment_ref := payment_ref r;
                        body_order_id := order_id r |}.
Proof.
  refine (proj1 (settlement_carries_gateway_result
                   (environment_of backend_ok approving None) "P1" 10%float
                   (connected false)
                   (ReqTradeBuy {| property_id := "P1"; token_amount := 10%float;
                                   body_payment_ref := Some "TXN_C3";
                                   body_order_id := "ORDER_A1" |})
                   (Some "Bearer T1") (Replied sample_response) eq_refl) _).
  vm_compute. right. right. left. reflexivity.
Defined.

(** X8: the requests of a trade come in a fixed order: nothing, or the
    pricing request alone, or the pricing request followed by exactly one
    settlement request; and the gateway is called at most once. *)
Theorem trade_request_sequence env (propertyId : string) (tokenAmount : float) w :
  (requests (log_of (buyTokens env propertyId tokenAmount w)) = []
   \/ requests (log_of (buyTokens env propertyId tokenAmount w))
      = [ReqProperty propertyId]
   \/ exists body,
        requests (log_of (buyTokens env propertyId tokenAmount w))
        = [ReqProperty propertyId; ReqTradeBuy body])
  /\ length (checkouts (log_of (buyTokens env propertyId tokenAmount w))) <= 1
  /\ (requests (log_of (sellTokens env propertyId tokenAmount w)) = []
      \/ requests (log_of (sellTokens env propertyId tokenAmount w))
         = [ReqProperty propertyId]
      \/ exists body,
           requests (log_of (sellTokens env propertyId tokenAmount w))
           = [ReqProperty propertyId; ReqTradeSell body])
  /\ length (checkouts (log_of (sellTokens env propertyId tokenAmount w))) <= 1.
Proof.
  repeat split.
  - unfold buyTokens. trade_cases; eauto.
  - unfold buyTokens. trade_cases; lia.
  - unfold sellTokens. trade_cases; eauto.
  - unfold sellTokens. trade_cases; lia.
Qed.

(** X9: [buyTokens] and [sellTokens] never write to the session: the token,
    the user profile, the wallet provider and the stored fields are the same
    after the call as before, however the call ends. *)
Theorem trade_leaves_session env (propertyId : string) (tokenAmount : float) w :
  (accessToken (world_of (buyTokens env propertyId tokenAmount w)) = accessToken w
   /\ currentUser (world_of (buyTokens env propertyId tokenAmount w)) = currentUser w
   /\ peraWallet (world_of (buyTokens env propertyId tokenAmount w)) = peraWallet w
   /\ localStorage (world_of (buyTokens env propertyId tokenAmount w))
      = localStorage w)
  /\ (accessToken (world_of (sellTokens env propertyId tokenAmount w)) = accessToken w
      /\ currentUser (world_of (sellTokens env propertyId tokenAmount w))
         = currentUser w
      /\ peraWallet (world_of (sellTokens env propertyId tokenAmount w))
         = peraWallet w
      /\ localStorage (world_of (sellTokens env propertyId tokenAmount w))
         = localStorage w).
Proof.
  split.
  - unfold buyTokens. trade_cases; repeat split.
  - unfold sellTokens. trade_cases; repeat split.
Qed.

(** X10: when no price can be had (the pricing request raised, or its
    response has no [property]), the trade stops there: the gateway is not
    called and is left as it was, nothing is settled, and the user is told
    "Failed to buy tokens: ..." (or "Failed to sell tokens: ...") with the
    error's message. *)
Theorem pricing_failure_aborts env (propertyId : string) (tokenAmount : float) w
    (msg : string) :
  truthy (accessToken w) = true ->
  pricing_error env propertyId = Some msg ->
  (checkouts (log_of (buyTokens env propertyId tokenAmount w)) = []
   /\ requests (log_of (buyTokens env propertyId tokenAmount w))
      = [ReqProperty propertyId]
   /\ alerts (log_of (buyTokens env propertyId tokenAmount w))
      = ["Failed to buy tokens: " +:+ msg]
   /\ outcome_of (buyTokens env propertyId tokenAmount w) = Ok RUndefined
   /\ gateway (world_of (buyTokens env propertyId tokenAmount w)) = gateway w)
  /\ (checkouts (log_of (sellTokens env propertyId tokenAmount w)) = []
      /\ requests (log_of (sellTokens env propertyId tokenAmount w))
         = [ReqProperty propertyId]
      /\ alerts (log_of (sellTokens env propertyId tokenAmount w))
         = ["Failed to sell tokens: " +:+ msg]
      /\ outcome_of (sellTokens env propertyId tokenAmount w) = Ok RNull
      /\ gateway (world_of (sellTokens env propertyId tokenAmount w)) = gateway w).
Proof.
  unfold pricing_error. intros Htok Herr. split; revert Htok Herr.
  - unfold buyTokens.
    trade_cases; intros; simplify_eq; repeat split.
  - unfold sellTokens.
    trade_cases; intros; simplify_eq; repeat split.
Qed.

Lemma pricing_failure_aborts_witness :
  alerts (log_of (buyTokens
                    (environment_of (fun _ => Failed {| message := "Failed to fetch" |})
                       approving None)
                    "P1" 10%float (connected false)))
  = ["Failed to buy tokens: Failed to fetch"].
Proof.
  exact (proj1 (proj2 (proj2 (proj1
           (pricing_failure_aborts
              (environment_of (fun _ => Failed {| message := "Failed to fetch" |})
                 approving None)
              "P1" 10%float (connected false) "Failed to fetch"
              eq_refl eq_refl))))).
Defined.

(** X11: [buyTokens] returns a transaction exactly when its settlement
    request was answered with success (and then it is that response's
    [transaction]); [sellTokens] returns the response exactly when its
    settlement request was answered with success. *)
Theorem trade_returns_iff_settled env (propertyId : string) (tokenAmount : float) w :
  (forall t,
     outcome_of (buyTokens env propertyId tokenAmount w) = Ok (RTransaction t)
     <-> exists body a d,
           In (Fetch (ReqTradeBuy body) a (Replied d))
              (log_of (buyTokens env propertyId tokenAmount w))
           /\ data_success d = true /\ transaction d = t)
  /\ (forall d,
        outcome_of (sellTokens env propertyId tokenAmount w) = Ok (RData d)
        <-> data_success d = true
            /\ exists body a,
                 In (Fetch (ReqTradeSell body) a (Replied d))
                    (log_of (sellTokens env propertyId tokenAmount w))).
Proof.
  split.
  - unfold buyTokens. trade_cases; intros t; split.
    all: try (intros (body & a & d & Hin & Hd & Ht); now in_log Hin).
    all: try discriminate.
    intros [= <-]. eexists _, _, _.
    split; [right; right; left; reflexivity|]. auto.
  - unfold sellTokens. trade_cases; intros d; split.
    all: try (intros (Hd & body & a & Hin); now in_log Hin).
    all: try discriminate.
    intros [= <-]. split; [assumption|].
    eexists _, _. right; right; left; reflexivity.
Qed.

Lemma trade_returns_iff_settled_witness :
  outcome_of (buyTokens (environment_of backend_ok approving None) "P1" 10%float
                (connected false))
  = Ok (RTransaction (JStr "TX")).
Proof.
  apply (proj1 (trade_returns_iff_settled
                  (environment_of backend_ok approving None) "P1" 10%float
                  (connected false)) (JStr "TX")).
  exists {| property_id := "P1"; token_amount := 10%float;
            body_payment_ref := Some "TXN_C3"; body_order_id := "ORDER_A1" |},
         (Some "Bearer T1"), sample_response.
  split; [|split; reflexivity].
  vm_compute. right. right. left. reflexivity.
Defined.

(** X12: the alerts "Payment cancelled or failed." and "Payout cancelled or
    failed." are never shown: the gateway only resolves with [success:
    true], so the branch that shows them cannot be taken. *)
Theorem cancelled_or_failed_never_shown env (propertyId : string)
    (tokenAmount : float) w :
  ~ In "Payment cancelled or failed."
       (alerts (log_of (buyTokens env propertyId tokenAmount w)))
  /\ ~ In "Payout cancelled or failed."
         (alerts (log_of (sellTokens env propertyId tokenAmount w))).
Proof.
  split.
  - unfold buyTokens. trade_cases; intros Hin; in_log Hin; made.
  - unfold sellTokens. trade_cases; intros Hin; in_log Hin; made.
Qed.

Lemma await_checkout_pending env (o : options) (g : PaymentGateway.state) :
  forallb (fun e => negb (acknowledges e)) (clicks env) = true ->
  fst (await_checkout env o g) = Pending.
Proof.
  intros H. unfold await_checkout. cbn [triggerCheckout fst].
  pose proof (pending_unless_acknowledged g o (random env) (clicks env) H) as Hp.
  rewrite run_cons in Hp. cbn [step snd triggerCheckout] in Hp.
  cbn. cbn in Hp. now rewrite Hp.
Qed.

(** X13: when the user neither acknowledges nor cancels, a trade that has
    reached the gateway never resumes: it stays suspended after the pricing
    request and the checkout, with no alert and no settlement. *)
Theorem trade_suspended_until_acknowledged env (propertyId : string)
    (tokenAmount : float) w :
  forallb (fun e => negb (acknowledges e)) (clicks env) = true ->
  truthy (accessToken w) = true ->
  pricing_error env propertyId = None ->
  (outcome_of (buyTokens env propertyId tokenAmount w) = Suspended
   /\ alerts (log_of (buyTokens env propertyId tokenAmount w)) = []
   /\ requests (log_of (buyTokens env propertyId tokenAmount w))
      = [ReqProperty propertyId])
  /\ (outcome_of (sellTokens env propertyId tokenAmount w) = Suspended
      /\ alerts (log_of (sellTokens env propertyId tokenAmount w)) = []
      /\ requests (log_of (sellTokens env propertyId tokenAmount w))
         = [ReqProperty propertyId]).
Proof.
  intros Hq. unfold pricing_error.
  assert (Hp : forall o g out g', await_checkout env o g = (out, g') -> out = Pending).
  { intros o g out g' Heq.
    pose proof (await_checkout_pending env o g Hq) as H. now rewrite Heq in H. }
  intros Htok Herr. split; revert Htok Herr.
  - unfold buyTokens. trade_cases; intros; simplify_eq; repeat split;
      match goal with H : await_checkout _ _ _ = _ |- _ =>
        apply Hp in H; discriminate H end.
  - unfold sellTokens. trade_cases; intros; simplify_eq; repeat split;
      match goal with H : await_checkout _ _ _ = _ |- _ =>
        apply Hp in H; discriminate H end.
Qed.

Lemma trade_suspended_until_acknowledged_witness :
  outcome_of (buyTokens
                (environment_of backend_ok [Process "UPI"; Timeout "C3"] None)
                "P1" 10%float (connected false))
  = Suspended.
Proof.
  exact (proj1 (proj1
           (trade_suspended_until_acknowledged
              (environment_of backend_ok [Process "UPI"; Timeout "C3"] None)
              "P1" 10%float (connected false) eq_refl eq_refl eq_refl))).
Defined.

(** X14: with a token, the first thing a trade does is to send the pricing
    request for the property, and that request carries the header
    [Authorization: Bearer <accessToken>] with the token the script holds
    when the trade is called (nothing is awaited between the guard and this
    request). *)
Theorem pricing_request_carries_token env (propertyId : string) (tokenAmount : float) w :
  truthy (accessToken w) = true ->
  head (log_of (buyTokens env propertyId tokenAmount w))
  = Some (Fetch (ReqProperty propertyId)
            (Some ("Bearer " +:+ to_string (accessToken w)))
            (respond env (ReqProperty propertyId)))
  /\ head (log_of (sellTokens env propertyId tokenAmount w))
     = Some (Fetch (ReqProperty propertyId)
               (Some ("Bearer " +:+ to_string (accessToken w)))
               (respond env (ReqProperty propertyId))).
Proof.
  intros Htok. split; revert Htok.
  - unfold buyTokens. trade_cases; intros Htok; try congruence; reflexivity.
  - unfold sellTokens. trade_cases; intros Htok; try congruence; reflexivity.
Qed.

Lemma pricing_request_carries_token_witness :
  head (log_of (buyTokens (environment_of backend_ok cancelling None) "P1" 10%float
                  (connected false)))
  = Some (Fetch (ReqProperty "P1") (Some "Bearer T1") (Replied sample_response)).
Proof.
  exact (proj1 (pricing_request_carries_token
                  (environment_of backend_ok cancelling None) "P1" 10%float
                  (connected false) eq_refl)).
Defined.

End TradingExtras.

(** * Further properties of the wallet session *)

Section SessionExtras.

Import PaymentGateway App Wallet.

Implicit Types (env : environment) (w : world).

Local Ltac unfold_m :=
  cbv [bind ret throw try_catch get modify emit alert console_error
       apiCall fetch checkout property_of saveToken clearToken
       setItem removeItem outcome_of world_of log_of report].

Local Arguments updateWalletUI : simpl never.

Local Ltac connect_cases :=
  unfold handleWalletConnection, register_request; unfold_m;
  repeat match goal with
    | |- context [respond ?e ?r] => destruct (respond e r) as [?data|?err] eqn:?; cbn
    | |- context [data_success ?d] => destruct (data_success d) eqn:?; cbn
    | |- context [N.eqb ?a ?b] => destruct (N.eqb a b) eqn:?; cbn
    | |- context [if ?b then _ else _] => is_var b; destruct b; cbn
    | |- context [updateWalletUI ?d ?b ?w] =>
        destruct (updateWalletUI_cases d b w) as [[?btn ?Hui]|[?err ?Hui]];
        rewrite Hui; cbn
    end.

Lemma world_eta w :
  {| accessToken := accessToken w; currentUser := currentUser w;
     peraWallet := peraWallet w; localStorage := localStorage w;
     gateway := gateway w |} = w.
Proof. now destruct w. Qed.

Lemma handleWalletConnection_cases env (accounts : list string) (isDemoMode : bool) w :
  let x := handleWalletConnection env accounts isDemoMode w in
  outcome_of x = Ok tt
  /\ ((alerts (log_of x) = ["Failed to complete wallet connection"]
       /\ world_of x = w)
      \/ (localStorage (world_of x)
          = stored_session accounts isDemoMode (accessToken (world_of x))
              (localStorage w)
          /\ peraWallet (world_of x) = peraWallet w
          /\ gateway (world_of x) = gateway w
          /\ alerts (log_of x)
             = [if button_update_raises env isDemoMode (world_of x)
                then "Failed to complete wallet connection"
                else connected_message accounts isDemoMode])).
Proof.
  unfold connected_message, stored_session, button_update_raises.
  destruct accounts as [|a rest]; connect_cases;
    (split; [reflexivity|]);
    first [ left; split; [reflexivity|]; try reflexivity; now try apply world_eta
          | right; repeat split ].
  all: match goal with
       | H1 : updateWalletUI _ _ _ = (Ok _, _, _),
         H2 : updateWalletUI _ _ _ = (Throw _, _, _) |- _ =>
           exfalso; generalize (eq_trans (eq_sym H1) H2); discriminate
       end.
Qed.

(** A connection that showed the success message has stored the session. *)
Lemma handleWalletConnection_connected env (accounts : list string)
    (isDemoMode : bool) w :
  let x := handleWalletConnection env accounts isDemoMode w in
  alerts (log_of x) = [connected_message accounts isDemoMode] ->
  localStorage (world_of x)
  = stored_session accounts isDemoMode (accessToken (world_of x)) (localStorage w).
Proof.
  intros x Hal.
  destruct (handleWalletConnection_cases env accounts isDemoMode w)
    as (_ & [(Hfail & _) | (Hls & _)]); [|exact Hls].
  fold x in Hfail. rewrite Hfail in Hal. exfalso.
  revert Hal. unfold connected_message. destruct isDemoMode; discriminate.
Qed.

(** X15: [handleWalletConnection] never raises and shows one alert.  Either
    it shows "Failed to complete wallet connection" and has changed nothing
    at all, or it has stored the three session fields together (the stored
    token being the text of the token now in memory), leaving everything
    else in the storage as it was; it then shows the success message, unless
    [updateWalletUI] raised on the session just written, in which case it
    shows "Failed to complete wallet connection" with the session written
    all the same. *)
Theorem connection_all_or_nothing env (accounts : list string) (isDemoMode : bool) w :
  let x := handleWalletConnection env accounts isDemoMode w in
  outcome_of x = Ok tt
  /\ ((alerts (log_of x) = ["Failed to complete wallet connection"]
       /\ world_of x = w)
      \/ (localStorage (world_of x)
          = stored_session accounts isDemoMode (accessToken (world_of x))
              (localStorage w)
          /\ peraWallet (world_of x) = peraWallet w
          /\ gateway (world_of x) = gateway w
          /\ alerts (log_of x)
             = [if button_update_raises env isDemoMode (world_of x)
                then "Failed to complete wallet connection"
                else connected_message accounts isDemoMode])).
Proof. exact (handleWalletConnection_cases env accounts isDemoMode w). Qed.

Lemma connection_all_or_nothing_witness :
  let x := handleWalletConnection (environment_of backend_address_not_text [] None)
             ["DEMOX1"] true disconnected in
  alerts (log_of x) = ["Failed to complete wallet connection"]
  /\ localStorage (world_of x) !! "accessToken" = Some "T2".
Proof.
  cbv zeta.
  destruct (connection_all_or_nothing
              (environment_of backend_address_not_text [] None)
              ["DEMOX1"] true disconnected)
    as (_ & [(Hal & Hw) | (Hls & _ & _ & Hal)]).
  - apply (f_equal accessToken) in Hw. vm_compute in Hw. discriminate Hw.
  - split; [exact Hal|]. rewrite Hls. reflexivity.
Defined.

Lemma stored_session_lookup (accounts : list string) (isDemoMode : bool)
    (token : jsval) (storage : gmap string string) :
  stored_session accounts isDemoMode token storage !! "accessToken"
  = Some (to_string token)
  /\ stored_session accounts isDemoMode token storage !! "walletAddress"
     = Some (to_string (first_account accounts)).
Proof.
  unfold stored_session. split.
  - now rewrite !lookup_insert_ne, lookup_insert_eq by done.
  - now rewrite lookup_insert_ne, lookup_insert_eq by done.
Qed.

Lemma truthy_JStr (s : string) : truthy (JStr s) = true <-> s ≠ "".
Proof.
  cbn. destruct (String.eqb_spec s ""); cbn; split; congruence.
Qed.

Lemma reload_spec (sdk : bool) w (t a : string) :
  localStorage w !! "accessToken" = Some t ->
  localStorage w !! "walletAddress" = Some a ->
  t ≠ "" -> a ≠ "" ->
  accessToken (reload sdk w) = JStr t
  /\ currentUser (reload sdk w)
     = Some {| wallet_address := JStr a; user_name := JUndefined;
               user_email := JUndefined |}.
Proof.
  intros Ht Ha Hte Hae. unfold reload, restoreSession, getItem. cbn.
  rewrite Ht, Ha.
  rewrite (proj2 (truthy_JStr t) Hte), (proj2 (truthy_JStr a) Hae).
  now cbn.
Qed.

(** X16: a completed connection survives a reload: when the adopted token
    and the first account are non-empty strings, the page that loads next
    restores that token and the wallet address from the storage (the
    profile's name and e-mail are not stored and are gone). *)
Theorem session_survives_reload env (a : string) (rest : list string)
    (isDemoMode sdk : bool) w (t : string) :
  let x := handleWalletConnection env (a :: rest) isDemoMode w in
  alerts (log_of x) = [connected_message (a :: rest) isDemoMode] ->
  accessToken (world_of x) = JStr t ->
  t ≠ "" -> a ≠ "" ->
  accessToken (reload sdk (world_of x)) = JStr t
  /\ currentUser (reload sdk (world_of x))
     = Some {| wallet_address := JStr a; user_name := JUndefined;
               user_email := JUndefined |}.
Proof.
  intros x Hal Htok Ht Ha.
  pose proof (handleWalletConnection_connected env (a :: rest) isDemoMode w Hal)
    as Hls.
  fold x in Hls. rewrite Htok in Hls.
  destruct (stored_session_lookup (a :: rest) isDemoMode (JStr t) (localStorage w))
    as (H1 & H2).
  rewrite <- Hls in H1, H2.
  exact (reload_spec sdk (world_of x) t a H1 H2 Ht Ha).
Qed.

Lemma session_survives_reload_witness :
  accessToken (reload false
                 (world_of (handleWalletConnection
                              (environment_of backend_fresh_identity [] None)
                              ["DEMOX1"] true disconnected)))
  = JStr "T2".
Proof.
  refine (proj1 (session_survives_reload
                   (environment_of backend_fresh_identity [] None)
                   "DEMOX1" [] true false disconnected "T2"
                   eq_refl eq_refl _ _)); discriminate.
Defined.

(** X17: a connection that adopted no token still stores one: when the
    adopted response had no [access_token] (undefined or null), the text
    "undefined" or "null" is stored, and after a reload that text is the
    session's token, which is truthy although the token before the reload
    was not. *)
Theorem missing_token_restored_as_text env (a : string) (rest : list string)
    (isDemoMode sdk : bool) w :
  let x := handleWalletConnection env (a :: rest) isDemoMode w in
  alerts (log_of x) = [connected_message (a :: rest) isDemoMode] ->
  accessToken (world_of x) = JUndefined \/ accessToken (world_of x) = JNull ->
  a ≠ "" ->
  truthy (accessToken (world_of x)) = false
  /\ accessToken (reload sdk (world_of x))
     = JStr (to_string (accessToken (world_of x)))
  /\ truthy (accessToken (reload sdk (world_of x))) = true.
Proof.
  intros x Hal Htok Ha.
  pose proof (handleWalletConnection_connected env (a :: rest) isDemoMode w Hal)
    as Hls.
  fold x in Hls.
  destruct (stored_session_lookup (a :: rest) isDemoMode (accessToken (world_of x))
              (localStorage w)) as (H1 & H2).
  rewrite <- Hls in H1, H2.
  assert (Hne : to_string (accessToken (world_of x)) ≠ "")
    by (destruct Htok as [-> | ->]; discriminate).
  destruct (reload_spec sdk (world_of x) _ a H1 H2 Hne Ha) as (Hr & _).
  rewrite Hr. repeat split.
  - destruct Htok as [-> | ->]; reflexivity.
  - now apply truthy_JStr.
Qed.

Lemma missing_token_restored_as_text_witness :
  accessToken (reload false
                 (world_of (handleWalletConnection
                              (environment_of backend_login_without_token [] None)
                              ["DEMOX1"] true disconnected)))
  = JStr "undefined".
Proof.
  refine (proj1 (proj2 (missing_token_restored_as_text
                          (environment_of backend_login_without_token [] None)
                          "DEMOX1" [] true false disconnected
                          eq_refl (or_introl eq_refl) _))); discriminate.
Defined.

(** X18: a reload restores a session exactly when the storage holds a
    non-empty token and a non-empty wallet address; the demo flag plays no
    part in it. *)
Theorem reload_restores_iff (sdk : bool) w :
  truthy (accessToken (reload sdk w)) = true
  <-> exists t a,
        localStorage w !! "accessToken" = Some t /\ t ≠ ""
        /\ localStorage w !! "walletAddress" = Some a /\ a ≠ "".
Proof.
  split.
  - unfold reload, restoreSession, getItem. cbn.
    destruct (localStorage w !! "accessToken") as [t|] eqn:Ht;
      destruct (localStorage w !! "walletAddress") as [a|] eqn:Ha; cbn;
      try discriminate.
    + destruct (String.eqb_spec t ""), (String.eqb_spec a ""); cbn;
        try discriminate.
      intros _. eauto 6.
    + destruct (String.eqb_spec t ""); cbn; discriminate.
  - intros (t & a & Ht & Hte & Ha & Hae).
    destruct (reload_spec sdk w t a Ht Ha Hte Hae) as (-> & _).
    now apply truthy_JStr.
Qed.

Lemma reload_restores_iff_witness :
  truthy (accessToken (reload false (connected false))) = true.
Proof.
  apply (proj2 (reload_restores_iff false (connected false))).
  exists "T1", "DEMOX1". repeat split; try discriminate; reflexivity.
Defined.

(** X19: after a disconnect that went through (no provider, or the provider
    disconnected), a reload finds no session; after a disconnect that the
    provider refused, a reload finds what it would have found without the
    disconnect. *)
Theorem reload_after_disconnect env w (sdk : bool) :
  (peraWallet w = false \/ wallet_disconnect env = None ->
   accessToken (reload sdk (world_of (disconnectWallet env w))) = JNull
   /\ currentUser (reload sdk (world_of (disconnectWallet env w))) = None)
  /\ (forall e, peraWallet w = true -> wallet_disconnect env = Some e ->
                reload sdk (world_of (disconnectWallet env w)) = reload sdk w).
Proof.
  split.
  - intros Hok.
    destruct (disconnectWallet_clears env w Hok) as (_ & _ & _ & _ & Hls & _).
    cbv zeta in Hls.
    unfold reload, restoreSession, getItem. cbn. rewrite Hls.
    rewrite !lookup_delete_ne, lookup_delete_eq by done. now cbn.
  - intros e Hp He. now rewrite (disconnectWallet_provider_fails env w e Hp He).
Qed.

Lemma reload_after_disconnect_witness :
  accessToken (reload false
                 (world_of (disconnectWallet (environment_of backend_ok [] None)
                              (connected false))))
  = JNull.
Proof.
  exact (proj1 (proj1 (reload_after_disconnect
                         (environment_of backend_ok [] None) (connected false) false)
                      (or_introl eq_refl))).
Defined.

(** X20: [connectDemoWallet] always goes through with a non-empty address:
    the text the user typed when there is one, otherwise DEMO followed by the
    random draw.  It never raises, its first effect is the registration
    request for that address as "Demo User", and its own alert "Failed to
    connect demo wallet" is never shown. *)
Theorem demo_wallet_always_registers env (answer : jsval) (draw : string) w :
  let x := connectDemoWallet env answer draw w in
  outcome_of x = Ok tt
  /\ demoAddress answer draw ≠ ""
  /\ demoAddress answer draw
     = (if truthy answer then to_string answer else "DEMO" +:+ draw)
  /\ (exists rep,
        head (log_of x)
        = Some (Fetch (ReqRegister (JStr (demoAddress answer draw)) "Demo User"
                         "demo@example.com") None rep))
  /\ ~ In "Failed to connect demo wallet" (alerts (log_of x)).
Proof.
  cbv zeta.
  assert (Heq : demoAddress answer draw
                = (if truthy answer then to_string answer else "DEMO" +:+ draw))
    by (unfold demoAddress, js_or; now destruct (truthy answer)).
  assert (Hne : demoAddress answer draw ≠ "").
  { rewrite Heq. destruct (truthy answer) eqn:Ht; [|discriminate].
    destruct answer as [| |s]; try discriminate Ht. cbn.
    now apply truthy_JStr. }
  unfold connectDemoWallet.
  generalize dependent (demoAddress answer draw). intros d Heq Hne.
  split; [|split; [exact Hne|split; [exact Heq|split]]].
  - connect_cases; reflexivity.
  - connect_cases; eauto.
  - connect_cases; cbn; intuition discriminate.
Qed.

(** [updateWalletUI] raises exactly when the page has the button, a profile
    is set, and the address to show is no string: the profile's address is
    some value other than text, or it is missing while nothing is stored. *)
Lemma updateWalletUI_raises (isDemoMode : bool) (btn : option button) w :
  (exists x, outcome_of (updateWalletUI isDemoMode btn w) = Throw x)
  <-> is_Some btn
      /\ exists u, currentUser w = Some u
                   /\ (wallet_address u = JOther
                       \/ (exists v, wallet_address u = JText v
                                     /\ truthy v = false
                                     /\ localStorage w !! "walletAddress" = None)).
Proof.
  unfold updateWalletUI, outcome_of, bind, get, ret, throw, json_or, js_or, getItem.
  destruct btn as [b|]; cbn;
    [|split; [intros [x [=]]|intros [[? [=]] _]]].
  destruct (currentUser w) as [u|]; cbn;
    [|split; [intros [x [=]]|intros (_ & u & [=] & _)]].
  destruct (wallet_address u) as [v|] eqn:Hv; cbn.
  - destruct (truthy v) eqn:Ht.
    + destruct v as [| |a]; try discriminate Ht. cbn.
      split; [intros [x [=]]|].
      intros (_ & u' & [= <-] & [Ho|(v' & Hv' & Hf & _)]); [congruence|].
      rewrite Hv in Hv'. injection Hv' as <-. congruence.
    + destruct (localStorage w !! "walletAddress") as [a|] eqn:Hl; cbn.
      * split; [intros [x [=]]|].
        intros (_ & u' & [= <-] & [Ho|(v' & _ & _ & [=])]). congruence.
      * split; [|eauto]. intros _. split; [eauto|].
        exists u. split; [reflexivity|]. right. exists v. now rewrite Hv.
  - split; [|eauto]. intros _. split; [eauto|].
    exists u. split; [reflexivity|]. now left.
Qed.

(** X21: [updateWalletUI] leaves the script's variables and the storage as
    they are.  It raises exactly when the page has the connect button, a
    profile is set, and the address to show is no string: the profile's
    address is a value other than text, or it is missing while no address is
    stored.  When a reload has restored a session it does not raise, the
    profile's address being the stored text; after the writes of
    [handleWalletConnection], where an address is stored, it raises only on a
    profile whose address is no text, and the success message is shown only
    when it did not raise. *)
Theorem updateWalletUI_raises_iff (isDemoMode : bool) w (btn : option button) :
  (world_of (updateWalletUI isDemoMode btn w) = w
   /\ log_of (updateWalletUI isDemoMode btn w) = [])
  /\ ((exists x, outcome_of (updateWalletUI isDemoMode btn w) = Throw x)
      <-> is_Some btn
          /\ exists u, currentUser w = Some u
                       /\ (wallet_address u = JOther
                           \/ (exists v, wallet_address u = JText v
                                         /\ truthy v = false
                                         /\ localStorage w !! "walletAddress" = None)))
  /\ (forall sdk d x, outcome_of (updateWalletUI d btn (reload sdk w)) ≠ Throw x)
  /\ (forall env accounts,
        let x := handleWalletConnection env accounts isDemoMode w in
        (alerts (log_of x) = [connected_message accounts isDemoMode] ->
         button_update_raises env isDemoMode (world_of x) = false)
        /\ (world_of x ≠ w ->
            button_update_raises env isDemoMode (world_of x) = true ->
            exists u, currentUser (world_of x) = Some u
                      /\ wallet_address u = JOther)).
Proof.
  split; [|split; [apply updateWalletUI_raises|split]].
  - destruct (updateWalletUI_cases isDemoMode btn w) as [[b ->]|[e ->]];
      now split.
  - intros sdk d x Hx.
    destruct (proj1 (updateWalletUI_raises d btn (reload sdk w)) (ex_intro _ x Hx))
      as (_ & u & Hu & Haddr).
    revert Hu Haddr. unfold reload, restoreSession, getItem. cbn.
    destruct (localStorage w !! "accessToken") as [t|]; cbn; [|discriminate].
    destruct (localStorage w !! "walletAddress") as [a|] eqn:Ha; cbn.
    + destruct (negb (String.eqb t "") && negb (String.eqb a "")) eqn:Hb; cbn;
        [|discriminate].
      intros [= <-]. cbn. apply andb_true_iff in Hb as [_ Hb].
      intros [[=]|(v & [= <-] & Hf & _)]. cbn in Hf. congruence.
    + rewrite andb_false_r. discriminate.
  - intros env accounts x.
    destruct (handleWalletConnection_cases env accounts isDemoMode w)
      as (_ & [(Hfail & Hw) | (Hls & _ & _ & Hal)]); fold x in Hfail, Hw || fold x in Hls, Hal.
    + split; [|intros Hne; contradiction].
      intros Hc. rewrite Hfail in Hc. exfalso. revert Hc.
      unfold connected_message. destruct isDemoMode; discriminate.
    + split.
      * intros Hc. rewrite Hal in Hc.
        destruct (button_update_raises env isDemoMode (world_of x)); [|reflexivity].
        exfalso. revert Hc. unfold connected_message.
        destruct isDemoMode; discriminate.
      * intros _ Hr. unfold button_update_raises in Hr.
        destruct (outcome_of (updateWalletUI isDemoMode (connectBtn env) (world_of x)))
          as [b|e|] eqn:Ho; try discriminate Hr.
        destruct (proj1 (updateWalletUI_raises isDemoMode (connectBtn env) (world_of x))
                    (ex_intro _ e Ho)) as (_ & u & Hu & [Hother|(v & _ & _ & Hl)]);
          [eauto|].
        destruct (stored_session_lookup accounts isDemoMode (accessToken (world_of x))
                    (localStorage w)) as (_ & H2).
        rewrite <- Hls in H2. congruence.
Qed.

Lemma updateWalletUI_raises_iff_witness :
  exists x,
    outcome_of
      (updateWalletUI false (Some connect_button)
         {| accessToken := JStr "T1";
            currentUser := Some {| wallet_address := JOther; user_name := JStr "A";
                                   user_email := JUndefined |};
            peraWallet := false;
            localStorage := <["walletAddress" := "DEMOX1"]> ∅;
            gateway := init |})
    = Throw x.
Proof.
  apply (proj2 (proj1 (proj2 (updateWalletUI_raises_iff false _ _)))).
  split; [eauto|]. eexists. split; [reflexivity|]. now left.
Defined.

End SessionExtras.

(** * Properties of KYC and property issuance *)

Section IssuanceExtras.

Import Issuance.

Implicit Types (accessToken : jsval) (backend : call -> answer).

(** A body written as its record is read as that object. *)
Local Arguments pair {A B} & a b.

Local Ltac issuance_cases bk :=
  cbv [registerProperty checkKYCStatus submitKYC uploadDocument verifyProperty
       tokenizeProperty apiCall request_with read andThen catch say pure
       kyc_verified];
  repeat match goal with
    | |- context [truthy ?t] => destruct (truthy t) eqn:?; cbn
    | |- context [bk ?c] => destruct (bk c) as [?d| |?e] eqn:?; cbn
    | |- context [strict_eq_str ?v ?s] => destruct (strict_eq_str v s) eqn:?; cbn
    | |- context [success ?d] => destruct (success d) eqn:?; cbn
    end.

(** X22: with a token, [registerProperty] always asks for the KYC status
    first and sends the registration request only when that answer says
    'verified'.  When the status answer is the body null, reading its
    status raises outside the try: the call raises a TypeError, shows no
    alert and goes nowhere.  Otherwise (any other status, or a status
    request that raised) it sends nothing more, tells the user that
    registration is blocked, sends the page to [kyc-verification.html] and
    returns undefined. *)
Theorem registration_needs_verified_kyc accessToken backend (formData : string) :
  truthy accessToken = true ->
  let x := registerProperty accessToken backend formData in
  head (calls (snd x)) = Some KycStatus
  /\ (kyc_verified backend = true ->
      calls (snd x) = [KycStatus; PropertiesRegister formData]
      /\ navigations (snd x) = [])
  /\ (backend KycStatus = AnsweredNull ->
      calls (snd x) = [KycStatus]
      /\ alerts (snd x) = []
      /\ navigations (snd x) = []
      /\ exists e, fst x = Thrown e)
  /\ (kyc_verified backend = false -> backend KycStatus ≠ AnsweredNull ->
      calls (snd x) = [KycStatus]
      /\ alerts (snd x) = [kyc_blocked_message]
      /\ navigations (snd x) = ["kyc-verification.html"]
      /\ fst x = Returned JUndefined).
Proof.
  intros Htok. cbv zeta. revert Htok. unfold kyc_blocked_message.
  issuance_cases backend; intros Htok; try discriminate Htok;
    (split; [reflexivity|split; [|split]]);
    intros; try discriminate; try congruence; repeat split; eauto.
Qed.

Lemma registration_needs_verified_kyc_witness :
  calls (snd (registerProperty (JStr "T1")
                (fun _ => Answered (only_status "pending")) "form"))
  = [KycStatus]
  /\ exists e, fst (registerProperty (JStr "T1") (fun _ => AnsweredNull) "form")
               = Thrown e.
Proof.
  split.
  - refine (proj1 (proj2 (proj2 (proj2
              (registration_needs_verified_kyc (JStr "T1")
                 (fun _ => Answered (only_status "pending")) "form" eq_refl)))
              eq_refl _)).
    discriminate.
  - exact (proj2 (proj2 (proj2 (proj1 (proj2 (proj2
             (registration_needs_verified_kyc (JStr "T1")
                (fun _ => AnsweredNull) "form" eq_refl)))
             eq_refl)))).
Defined.

(** X23: without a token, [registerProperty], [uploadDocument] and
    [submitKYC] only show "Please connect your wallet first" and
    [checkKYCStatus] silently answers [{ status: 'none' }]: none of them
    sends a request.  [verifyProperty] and [tokenizeProperty] have no such
    guard: they send their request all the same, without an Authorization
    header. *)
Theorem issuance_without_token accessToken backend
    (formData propertyId file docType kycData : string) :
  truthy accessToken = false ->
  registerProperty accessToken backend formData
  = (Returned JUndefined, [Alert "Please connect your wallet first"])
  /\ uploadDocument accessToken backend propertyId file docType
     = (Returned None, [Alert "Please connect your wallet first"])
  /\ submitKYC accessToken backend kycData
     = (Returned None, [Alert "Please connect your wallet first"])
  /\ checkKYCStatus accessToken backend = (Returned (only_status "none"), [])
  /\ head (snd (verifyProperty accessToken backend propertyId))
     = Some (Request (PropertyVerify propertyId) None
               (backend (PropertyVerify propertyId)))
  /\ head (snd (tokenizeProperty accessToken backend propertyId))
     = Some (Request (PropertyTokenize propertyId) None
               (backend (PropertyTokenize propertyId))).
Proof.
  intros Htok.
  unfold registerProperty, uploadDocument, submitKYC, checkKYCStatus,
    verifyProperty, tokenizeProperty, apiCall, request_with, catch.
  rewrite Htok. cbn.
  repeat split.
  - destruct (backend (PropertyVerify propertyId)); reflexivity.
  - destruct (backend (PropertyTokenize propertyId)); reflexivity.
Qed.

Lemma issuance_without_token_witness :
  head (snd (tokenizeProperty JNull (fun _ => Answered (only_status "ok")) "P1"))
  = Some (Request (PropertyTokenize "P1") None (Answered (only_status "ok"))).
Proof.
  exact (proj2 (proj2 (proj2 (proj2 (proj2
           (issuance_without_token JNull (fun _ => Answered (only_status "ok"))
              "form" "P1" "file" "deed" "kyc" eq_refl)))))).
Defined.

(** X24: which functions raise to their caller: [verifyProperty],
    [tokenizeProperty] and (with a token) [uploadDocument] raise exactly the
    error with which their request failed, after logging it;
    [registerProperty] raises exactly when there is a token and the KYC
    status request is answered with the body null (a failed request never
    reaches its caller); [submitKYC] and [checkKYCStatus] never raise. *)
Theorem issuance_error_propagation accessToken backend
    (formData propertyId file docType kycData : string) (e : App.js_error) :
  (fst (verifyProperty accessToken backend propertyId) = Thrown e
   <-> backend (PropertyVerify propertyId) = Raised e)
  /\ (fst (tokenizeProperty accessToken backend propertyId) = Thrown e
      <-> backend (PropertyTokenize propertyId) = Raised e)
  /\ (truthy accessToken = true ->
      (fst (uploadDocument accessToken backend propertyId file docType) = Thrown e
       <-> backend (UploadDocument propertyId file docType) = Raised e))
  /\ ((exists e', fst (registerProperty accessToken backend formData) = Thrown e')
      <-> truthy accessToken = true /\ backend KycStatus = AnsweredNull)
  /\ fst (submitKYC accessToken backend kycData) ≠ Thrown e
  /\ fst (checkKYCStatus accessToken backend) ≠ Thrown e.
Proof.
  split; [|split; [|split; [|split; [|split]]]].
  - issuance_cases backend; split; intros; try discriminate; congruence.
  - issuance_cases backend; split; intros; try discriminate; congruence.
  - issuance_cases backend; intros; split; intros; try discriminate; congruence.
  - issuance_cases backend; split.
    all: try (intros [e' He']; discriminate He').
    all: try (intros [? ?]; discriminate).
    all: try (intros _; split; reflexivity).
    all: try (intros _; eauto).
  - issuance_cases backend; discriminate.
  - issuance_cases backend; discriminate.
Qed.

Lemma issuance_error_propagation_witness :
  fst (verifyProperty JNull (fun _ => Raised {| App.message := "Failed to fetch" |})
         "P1")
  = Thrown {| App.message := "Failed to fetch" |}.
Proof.
  apply (proj1 (issuance_error_propagation JNull
                  (fun _ => Raised {| App.message := "Failed to fetch" |})
                  "form" "P1" "file" "deed" "kyc"
                  {| App.message := "Failed to fetch" |})).
  reflexivity.
Defined.

(** X25: [registerProperty] announces success and returns the new
    [property_id] exactly when there is a token, the KYC status is
    'verified' and the registration request is answered with success. *)
Theorem registration_succeeds_iff accessToken backend (formData : string) :
  In "Property registered successfully!"
     (alerts (snd (registerProperty accessToken backend formData)))
  <-> truthy accessToken = true
      /\ kyc_verified backend = true
      /\ exists d, backend (PropertiesRegister formData) = Answered d
                   /\ success d = true
                   /\ fst (registerProperty accessToken backend formData)
                      = Returned (property_id d).
Proof.
  issuance_cases backend; split; cbn.
  all: try (intros [H|H]; try discriminate H; try contradiction).
  all: try (intros (H1 & H2 & d' & H3 & H4 & H5); try discriminate;
            simplify_eq; congruence).
  all: try contradiction.
  all: try (intros _; repeat split; eauto).
  all: try (repeat split; eauto; fail).
Qed.

Lemma registration_succeeds_iff_witness :
  In "Property registered successfully!"
     (alerts (snd (registerProperty (JStr "T1")
                     (fun c => match c with
                               | KycStatus => Answered (only_status "verified")
                               | _ => Answered {| success := true; status := JUndefined;
                                                  error := JUndefined;
                                                  message := JUndefined;
                                                  property_id := JStr "PROP1" |}
                               end)
                     "form"))).
Proof.
  apply (proj2 (registration_succeeds_iff (JStr "T1") _ "form")).
  split; [reflexivity|]. split; [reflexivity|].
  eexists. split; [reflexivity|]. split; reflexivity.
Defined.

(** X26: [submitKYC] never raises; it returns true exactly when there is a
    token and the verification request is answered with success, and a
    request that raised is reported as "KYC submission failed" with the
    result false. *)
Theorem submitKYC_result accessToken backend (kycData : string) :
  (fst (submitKYC accessToken backend kycData) = Returned (Some true)
   <-> truthy accessToken = true
       /\ exists d, backend (KycVerify kycData) = Answered d /\ success d = true)
  /\ (forall e, truthy accessToken = true ->
                backend (KycVerify kycData) = Raised e ->
                fst (submitKYC accessToken backend kycData) = Returned (Some false)
                /\ alerts (snd (submitKYC accessToken backend kycData))
                   = ["KYC submission failed"]).
Proof.
  split.
  - issuance_cases backend; split; try discriminate; try (intros (H1 & d' & H2 & H3));
      try discriminate; try congruence.
    intros _. split; [reflexivity|]. eauto.
  - intros e. issuance_cases backend; intros; try discriminate; try congruence.
    now repeat split.
Qed.

Lemma submitKYC_result_witness :
  fst (submitKYC (JStr "T1") (fun _ => Raised {| App.message := "Failed to fetch" |})
         "kyc")
  = Returned (Some false).
Proof.
  exact (proj1 (proj2 (submitKYC_result (JStr "T1")
                         (fun _ => Raised {| App.message := "Failed to fetch" |})
                         "kyc")
                      {| App.message := "Failed to fetch" |} eq_refl eq_refl)).
Defined.

End IssuanceExtras.
